(** * cliq_backend: a shallow embedding of the Meta Ads proxy

    The development follows the layout of the repository:

    - [Js]             the JavaScript values the handlers manipulate
    - [Codec]          the runtime primitives behind the OAuth [state] value
                       (JSON.stringify and JSON.parse, Buffer utf8 and base64)
    - [UserTokenModel] models/UserToken.js and the Mongoose collection
    - [Upstream]       the Graph API as seen through axios
    - [MetaApi]        services/metaApi.js
    - [Http], [Meta]   Express responses and routes/meta.js
    - [Auth]           routes/auth.js

    followed by the notions the statements use ([Spec]), sample data, and
    the results, one section per component.

    Conventions.  A JavaScript string is the list of its UTF-16 code
    units.  [null] and [undefined] are both [None] where the code only
    tests truthiness.  Instants are integer milliseconds since the epoch,
    as returned by [Date.now()].  Every awaited call is an oracle whose
    result is either fulfilled or rejected, so each [try]/[catch] of the
    source has both of its branches in the model.  Upstream payloads are
    typed after the Graph API fields the code reads.  [console.*] calls
    have no effect on any response and are left out. *)

From Stdlib Require Import ZArith List String Ascii Lia Bool.
From stdpp Require Import base option list gmap strings.

Set Warnings "-register-all".
Open Scope Z_scope.

(* ===================================================================== *)
(** * JavaScript values *)
(* ===================================================================== *)

Module Js.

(** A string is its sequence of UTF-16 code units. *)
Definition jsstring := list Z.

Definition code_unit (c : Z) : Prop := 0 <= c < 65536.

(** Source literals are ASCII. *)
Definition lit (s : string) : jsstring :=
  map (fun a => Z.of_N (N_of_ascii a)) (list_ascii_of_string s).

(** ToBoolean on a string: only the empty string is falsy. *)
Definition truthy_str (s : jsstring) : bool :=
  match s with [] => false | _ :: _ => true end.

(** ToBoolean on a string-or-null/undefined. *)
Definition truthy (o : option jsstring) : bool :=
  match o with Some s => truthy_str s | None => false end.

(** [a || b] on string-or-null/undefined operands. *)
Definition or_else (a b : option jsstring) : option jsstring :=
  if truthy a then a else b.

(** [a || d] where [d] is a string literal. *)
Definition or_default (a : option jsstring) (d : jsstring) : jsstring :=
  match a with
  | Some s => if truthy_str s then s else d
  | None => d
  end.

(** String.prototype.startsWith(p), position 0. *)
Fixpoint startsWith (s p : jsstring) {struct p} : bool :=
  match p with
  | [] => true
  | c :: p' =>
      match s with
      | [] => false
      | d :: s' => if d =? c then startsWith s' p' else false
      end
  end.

(** A JSON value as produced by JSON.parse.  A number keeps its literal:
    the double it denotes is never inspected by this program. *)
Inductive json :=
| JNull
| JBool (b : bool)
| JNum (literal : jsstring)
| JStr (s : jsstring)
| JArr (elems : list json)
| JObj (props : gmap jsstring json).

(** An awaited promise. The rejection carries what the handlers read from
    the error: [error.message] and, for an HTTP error response,
    [error.response.data.error?.message]. *)
Record JsError := {
  message : jsstring;
  response : option (option jsstring)
}.

Inductive outcome (A : Type) :=
| Fulfilled (a : A)
| Rejected (e : JsError).
Arguments Fulfilled {A} a.
Arguments Rejected {A} e.

(** [new Error(msg)]. *)
Definition Error (msg : jsstring) : JsError :=
  {| message := msg; response := None |}.

End Js.
Export Js.

(* ===================================================================== *)
(** * Runtime primitives behind the OAuth [state] value *)
(* ===================================================================== *)

Module Codec.

Definition is_high (c : Z) : bool := (0xD800 <=? c) && (c <=? 0xDBFF).
Definition is_low (c : Z) : bool := (0xDC00 <=? c) && (c <=? 0xDFFF).

(** ** JSON.stringify on a string (QuoteJSONString) *)

Definition hex_digit (n : Z) : Z := if n <? 10 then 48 + n else 87 + n.

(** UnicodeEscape: backslash, u, four lowercase hex digits. *)
Definition UnicodeEscape (c : Z) : jsstring :=
  [92; 117; hex_digit (c / 4096); hex_digit ((c / 256) mod 16);
   hex_digit ((c / 16) mod 16); hex_digit (c mod 16)].

(** One code unit that is not half of a surrogate pair. *)
Definition quote_unit (c : Z) : jsstring :=
  if c =? 8 then [92; 98]
  else if c =? 9 then [92; 116]
  else if c =? 10 then [92; 110]
  else if c =? 12 then [92; 102]
  else if c =? 13 then [92; 114]
  else if c =? 34 then [92; 34]
  else if c =? 92 then [92; 92]
  else if (c <? 32) || is_high c || is_low c then UnicodeEscape c
  else [c].

(** The string is read by code points: a high surrogate followed by a low
    one is copied as a pair, any other surrogate is escaped. *)
Fixpoint quote_units (s : jsstring) : jsstring :=
  match s with
  | [] => []
  | c :: r =>
      if is_high c then
        match r with
        | d :: r' =>
            if is_low d then c :: d :: quote_units r'
            else UnicodeEscape c ++ quote_units r
        | [] => UnicodeEscape c
        end
      else quote_unit c ++ quote_units r
  end.

Definition QuoteJSONString (s : jsstring) : jsstring :=
  [34] ++ quote_units s ++ [34].

(** [JSON.stringify({ userId })] for a string [userId]: an object with
    the single property [userId]. *)
Definition JSON_stringify_userId (userId : jsstring) : jsstring :=
  [123] ++ QuoteJSONString (lit "userId") ++ [58]
        ++ QuoteJSONString userId ++ [125].

(** ** JSON.parse *)

Definition is_ws (c : Z) : bool :=
  (c =? 9) || (c =? 10) || (c =? 13) || (c =? 32).

Fixpoint skip_ws (s : jsstring) : jsstring :=
  match s with
  | [] => []
  | c :: r => if is_ws c then skip_ws r else s
  end.

Definition hex_value (c : Z) : option Z :=
  if (48 <=? c) && (c <=? 57) then Some (c - 48)
  else if (97 <=? c) && (c <=? 102) then Some (c - 87)
  else if (65 <=? c) && (c <=? 70) then Some (c - 55)
  else None.

Definition hex4 (a b c d : Z) : option Z :=
  match hex_value a, hex_value b, hex_value c, hex_value d with
  | Some x, Some y, Some z, Some w => Some (x * 4096 + y * 256 + z * 16 + w)
  | _, _, _, _ => None
  end.

(** The character after a backslash, other than [u]. *)
Definition unescape (e : Z) : option Z :=
  if e =? 34 then Some 34
  else if e =? 92 then Some 92
  else if e =? 47 then Some 47
  else if e =? 98 then Some 8
  else if e =? 102 then Some 12
  else if e =? 110 then Some 10
  else if e =? 114 then Some 13
  else if e =? 116 then Some 9
  else None.

(** The characters of a string literal, after its opening quote, up to and
    including the closing quote. *)
Fixpoint parse_chars (s : jsstring) : option (jsstring * jsstring) :=
  match s with
  | [] => None
  | c :: r =>
      if c =? 34 then Some ([], r)
      else if c =? 92 then
        match r with
        | [] => None
        | e :: r1 =>
            if e =? 117 then
              match r1 with
              | h1 :: h2 :: h3 :: h4 :: r2 =>
                  match hex4 h1 h2 h3 h4 with
                  | Some v =>
                      match parse_chars r2 with
                      | Some (str, rest) => Some (v :: str, rest)
                      | None => None
                      end
                  | None => None
                  end
              | _ => None
              end
            else
              match unescape e with
              | Some v =>
                  match parse_chars r1 with
                  | Some (str, rest) => Some (v :: str, rest)
                  | None => None
                  end
              | None => None
              end
        end
      else if c <? 32 then None
      else
        match parse_chars r with
        | Some (str, rest) => Some (c :: str, rest)
        | None => None
        end
  end.

Definition is_digit (c : Z) : bool := (48 <=? c) && (c <=? 57).

Fixpoint span_digits (s : jsstring) : jsstring * jsstring :=
  match s with
  | [] => ([], [])
  | c :: r =>
      if is_digit c then let (ds, rest) := span_digits r in (c :: ds, rest)
      else ([], s)
  end.

(** The digits of a fraction or of an exponent: at least one. *)
Definition digits1 (s : jsstring) : option (jsstring * jsstring) :=
  match span_digits s with
  | ([], _) => None
  | (ds, rest) => Some (ds, rest)
  end.

Definition parse_int_part (s : jsstring) : option (jsstring * jsstring) :=
  match s with
  | [] => None
  | c :: r =>
      if c =? 48 then Some ([48], r)
      else if is_digit c then let (ds, rest) := span_digits r in Some (c :: ds, rest)
      else None
  end.

Definition parse_fraction (s : jsstring) : option (jsstring * jsstring) :=
  match s with
  | c :: r =>
      if c =? 46 then
        match digits1 r with
        | Some (ds, rest) => Some (c :: ds, rest)
        | None => None
        end
      else Some ([], s)
  | [] => Some ([], s)
  end.

Definition parse_exponent (s : jsstring) : option (jsstring * jsstring) :=
  match s with
  | c :: r =>
      if (c =? 101) || (c =? 69) then
        match r with
        | sg :: r1 =>
            if (sg =? 43) || (sg =? 45) then
              match digits1 r1 with
              | Some (ds, rest) => Some (c :: sg :: ds, rest)
              | None => None
              end
            else
              match digits1 r with
              | Some (ds, rest) => Some (c :: ds, rest)
              | None => None
              end
        | [] => None
        end
      else Some ([], s)
  | [] => Some ([], s)
  end.

(** A number literal: -? int frac? exp?  The literal itself is kept. *)
Definition parse_number (s : jsstring) : option (jsstring * jsstring) :=
  let '(sign, s0) :=
    match s with
    | c :: r => if c =? 45 then ([45], r) else ([], s)
    | [] => ([], s)
    end in
  match parse_int_part s0 with
  | None => None
  | Some (ip, s1) =>
      match parse_fraction s1 with
      | None => None
      | Some (fp, s2) =>
          match parse_exponent s2 with
          | None => None
          | Some (ep, s3) => Some (sign ++ ip ++ fp ++ ep, s3)
          end
      end
  end.

(** [s] with the keyword [kw] removed from its front. *)
Fixpoint strip_prefix (kw s : jsstring) : option jsstring :=
  match kw with
  | [] => Some s
  | k :: kw' =>
      match s with
      | c :: r => if c =? k then strip_prefix kw' r else None
      | [] => None
      end
  end.

(** Values, object members and array elements.  [fuel] bounds the depth
    of the recursion; every call consumes input first. *)
Fixpoint parse_value (fuel : nat) (s : jsstring) : option (json * jsstring) :=
  match fuel with
  | O => None
  | S fuel' =>
      match skip_ws s with
      | [] => None
      | c :: r =>
          if c =? 123 then
            match skip_ws r with
            | [] => None
            | c' :: r' =>
                if c' =? 125 then Some (JObj ∅, r')
                else parse_members fuel' ∅ (c' :: r')
            end
          else if c =? 91 then
            match skip_ws r with
            | [] => None
            | c' :: r' =>
                if c' =? 93 then Some (JArr [], r')
                else parse_elements fuel' [] (c' :: r')
            end
          else if c =? 34 then
            match parse_chars r with
            | Some (str, rest) => Some (JStr str, rest)
            | None => None
            end
          else if c =? 116 then
            match strip_prefix (lit "true") (c :: r) with
            | Some rest => Some (JBool true, rest)
            | None => None
            end
          else if c =? 102 then
            match strip_prefix (lit "false") (c :: r) with
            | Some rest => Some (JBool false, rest)
            | None => None
            end
          else if c =? 110 then
            match strip_prefix (lit "null") (c :: r) with
            | Some rest => Some (JNull, rest)
            | None => None
            end
          else
            match parse_number (c :: r) with
            | Some (num, rest) => Some (JNum num, rest)
            | None => None
            end
      end
  end
with parse_members (fuel : nat) (acc : gmap jsstring json) (s : jsstring)
  : option (json * jsstring) :=
  match fuel with
  | O => None
  | S fuel' =>
      match skip_ws s with
      | [] => None
      | c :: r =>
          if c =? 34 then
            match parse_chars r with
            | None => None
            | Some (key, r1) =>
                match skip_ws r1 with
                | [] => None
                | c1 :: r2 =>
                    if c1 =? 58 then
                      match parse_value fuel' r2 with
                      | None => None
                      | Some (v, r3) =>
                          match skip_ws r3 with
                          | [] => None
                          | c3 :: r4 =>
                              if c3 =? 125 then Some (JObj (<[key := v]> acc), r4)
                              else if c3 =? 44 then
                                parse_members fuel' (<[key := v]> acc) r4
                              else None
                          end
                      end
                    else None
                end
            end
          else None
      end
  end
with parse_elements (fuel : nat) (acc : list json) (s : jsstring)
  : option (json * jsstring) :=
  match fuel with
  | O => None
  | S fuel' =>
      match parse_value fuel' s with
      | None => None
      | Some (v, r1) =>
          match skip_ws r1 with
          | [] => None
          | c :: r2 =>
              if c =? 93 then Some (JArr (acc ++ [v]), r2)
              else if c =? 44 then parse_elements fuel' (acc ++ [v]) r2
              else None
          end
      end
  end.

(** [JSON.parse(text)]: [None] is the SyntaxError. *)
Definition JSON_parse (text : jsstring) : option json :=
  match parse_value (S (length text)) text with
  | Some (v, rest) =>
      match skip_ws rest with
      | [] => Some v
      | _ :: _ => None
      end
  | None => None
  end.

(** ** Buffer.from(string) and buffer.toString(): UTF-8 *)

Definition utf8_of_code_point (cp : Z) : list Z :=
  if cp <? 0x80 then [cp]
  else if cp <? 0x800 then [0xC0 + cp / 64; 0x80 + cp mod 64]
  else if cp <? 0x10000 then
    [0xE0 + cp / 4096; 0x80 + (cp / 64) mod 64; 0x80 + cp mod 64]
  else
    [0xF0 + cp / 262144; 0x80 + (cp / 4096) mod 64;
     0x80 + (cp / 64) mod 64; 0x80 + cp mod 64].

(** U+FFFD in UTF-8, written for an unpaired surrogate. *)
Definition replacement_bytes : list Z := [0xEF; 0xBF; 0xBD].

Fixpoint utf8_encode (s : jsstring) : list Z :=
  match s with
  | [] => []
  | c :: r =>
      if is_high c then
        match r with
        | d :: r' =>
            if is_low d then
              utf8_of_code_point (0x10000 + (c - 0xD800) * 1024 + (d - 0xDC00))
                ++ utf8_encode r'
            else replacement_bytes ++ utf8_encode r
        | [] => replacement_bytes
        end
      else if is_low c then replacement_bytes ++ utf8_encode r
      else utf8_of_code_point c ++ utf8_encode r
  end.

Definition in_range (b lo hi : Z) : bool := (lo <=? b) && (b <=? hi).

(** Bounds of the byte that may follow a three- or four-byte lead. *)
Definition second_lo (b0 : Z) : Z :=
  if b0 =? 0xE0 then 0xA0 else if b0 =? 0xF0 then 0x90 else 0x80.
Definition second_hi (b0 : Z) : Z :=
  if b0 =? 0xED then 0x9F else if b0 =? 0xF4 then 0x8F else 0xBF.

(** UTF-16 code units of a supplementary code point. *)
Definition surrogates (cp : Z) : jsstring :=
  [0xD800 + (cp - 0x10000) / 1024; 0xDC00 + (cp - 0x10000) mod 1024].

(** Decoding replaces every ill-formed sequence by U+FFFD and resumes at
    the byte that broke the sequence. *)
Fixpoint utf8_decode (bs : list Z) : jsstring :=
  match bs with
  | [] => []
  | b0 :: r =>
      if b0 <? 0x80 then b0 :: utf8_decode r
      else if in_range b0 0xC2 0xDF then
        match r with
        | [] => [0xFFFD]
        | b1 :: r1 =>
            if in_range b1 0x80 0xBF
            then ((b0 - 0xC0) * 64 + (b1 - 0x80)) :: utf8_decode r1
            else 0xFFFD :: utf8_decode r
        end
      else if in_range b0 0xE0 0xEF then
        match r with
        | [] => [0xFFFD]
        | b1 :: r1 =>
            if in_range b1 (second_lo b0) (second_hi b0) then
              match r1 with
              | [] => [0xFFFD]
              | b2 :: r2 =>
                  if in_range b2 0x80 0xBF
                  then ((b0 - 0xE0) * 4096 + (b1 - 0x80) * 64 + (b2 - 0x80))
                         :: utf8_decode r2
                  else 0xFFFD :: utf8_decode r1
              end
            else 0xFFFD :: utf8_decode r
        end
      else if in_range b0 0xF0 0xF4 then
        match r with
        | [] => [0xFFFD]
        | b1 :: r1 =>
            if in_range b1 (second_lo b0) (second_hi b0) then
              match r1 with
              | [] => [0xFFFD]
              | b2 :: r2 =>
                  if in_range b2 0x80 0xBF then
                    match r2 with
                    | [] => [0xFFFD]
                    | b3 :: r3 =>
                        if in_range b3 0x80 0xBF
                        then surrogates ((b0 - 0xF0) * 262144 + (b1 - 0x80) * 4096
                                         + (b2 - 0x80) * 64 + (b3 - 0x80))
                               ++ utf8_decode r3
                        else 0xFFFD :: utf8_decode r2
                    end
                  else 0xFFFD :: utf8_decode r1
              end
            else 0xFFFD :: utf8_decode r
        end
      else 0xFFFD :: utf8_decode r
  end.

(** ** buffer.toString('base64') and Buffer.from(string, 'base64') *)

Definition base64_char (n : Z) : Z :=
  if n <? 26 then 65 + n
  else if n <? 52 then 71 + n
  else if n <? 62 then n - 4
  else if n =? 62 then 43
  else 47.

Fixpoint base64_encode (bs : list Z) : jsstring :=
  match bs with
  | [] => []
  | a :: r =>
      match r with
      | [] => [base64_char (a / 4); base64_char ((a mod 4) * 16); 61; 61]
      | b :: r1 =>
          match r1 with
          | [] =>
              [base64_char (a / 4); base64_char ((a mod 4) * 16 + b / 16);
               base64_char ((b mod 16) * 4); 61]
          | c :: r2 =>
              [base64_char (a / 4); base64_char ((a mod 4) * 16 + b / 16);
               base64_char ((b mod 16) * 4 + c / 64); base64_char (c mod 64)]
                ++ base64_encode r2
          end
      end
  end.

(** The decoder reads a string one byte per code unit: of a code unit
    above 255 it sees the low byte only. *)
Definition low_byte (c : Z) : Z := c mod 256.

(** The decoder accepts the standard and the URL-safe alphabet. *)
Definition unbase64 (c : Z) : option Z :=
  if in_range c 65 90 then Some (c - 65)
  else if in_range c 97 122 then Some (c - 71)
  else if in_range c 48 57 then Some (c + 4)
  else if (c =? 43) || (c =? 45) then Some 62
  else if (c =? 47) || (c =? 95) then Some 63
  else None.

(** Decoding stops at the first [=]; characters outside the alphabet are
    skipped. *)
Fixpoint sextets (s : jsstring) : list Z :=
  match s with
  | [] => []
  | c :: r =>
      let b := low_byte c in
      if b =? 61 then []
      else
        match unbase64 b with
        | Some v => v :: sextets r
        | None => sextets r
        end
  end.

Fixpoint bytes_of_sextets (q : list Z) : list Z :=
  match q with
  | a :: b :: r =>
      match r with
      | [] => [a * 4 + b / 16]
      | c :: r1 =>
          match r1 with
          | [] => [a * 4 + b / 16; (b mod 16) * 16 + c / 4]
          | d :: r2 =>
              [a * 4 + b / 16; (b mod 16) * 16 + c / 4; (c mod 4) * 64 + d]
                ++ bytes_of_sextets r2
          end
      end
  | _ => []
  end.

Definition base64_decode (s : jsstring) : list Z :=
  bytes_of_sextets (sextets s).

End Codec.

(* ===================================================================== *)
(** * models/UserToken.js *)
(* ===================================================================== *)

Module UserTokenModel.

(** The fields of the schema that a handler reads or writes.  [createdAt]
    and [updatedAt] are maintained by Mongoose and read nowhere. *)
Record UserToken := {
  userId : jsstring;
  accessToken : jsstring;
  refreshToken : option jsstring;
  expiresAt : option Z;
  tokenType : jsstring;
  adAccountId : option jsstring
}.

(** [isExpired()], with [now] the value of [Date.now()]. *)
Definition isExpired (now : Z) (this : UserToken) : bool :=
  match expiresAt this with
  | None => false
  | Some e => now >=? e
  end.

(** [needsRefresh()]. *)
Definition needsRefresh (now : Z) (this : UserToken) : bool :=
  match expiresAt this with
  | None => false
  | Some e =>
      let fiveMinutes := 5 * 60 * 1000 in
      now >=? e - fiveMinutes
  end.

(** The collection: at most one document per [userId] (unique index).
    [down = Some e] is a store that rejects every operation with [e];
    [cast_message] is the message of the CastError with which Mongoose
    refuses an update that does not fit the schema, in Mongoose's own
    wording. *)
Record Db := {
  docs : gmap jsstring UserToken;
  down : option JsError;
  cast_message : jsstring
}.

(** A Date is held as its time value.  [new Date(t)] is an Invalid Date
    when [t] lies outside the time range, 8.64e15 ms either side of the
    epoch. *)
Definition valid_date (t : Z) : bool :=
  (-8640000000000000 <=? t) && (t <=? 8640000000000000).

(** A value for [expiresAt] that the schema accepts: [null] or a Date
    that is not an Invalid Date. *)
Definition castable_date (d : option Z) : bool :=
  match d with
  | Some t => valid_date t
  | None => true
  end.

(** [UserToken.findOne({ userId })]. *)
Definition findOne (db : Db) (uid : jsstring) : outcome (option UserToken) :=
  match down db with
  | Some e => Rejected e
  | None => Fulfilled (docs db !! uid)
  end.

(** The update document of the OAuth callback. *)
Record Update := {
  set_userId : jsstring;
  set_accessToken : jsstring;
  set_expiresAt : option Z;
  set_tokenType : jsstring;
  set_adAccountId : option jsstring
}.

Definition apply_update (old : option UserToken) (u : Update) : UserToken :=
  {| userId := set_userId u;
     accessToken := set_accessToken u;
     refreshToken := match old with Some d => refreshToken d | None => None end;
     expiresAt := set_expiresAt u;
     tokenType := set_tokenType u;
     adAccountId := set_adAccountId u |}.

(** [UserToken.findOneAndUpdate({ userId: userId }, tokenData,
    { upsert: true, new: true })], as the callback calls it: the filter
    is the [userId] of the update itself.  Mongoose casts the update
    before it reaches the store, and refuses an Invalid Date. *)
Definition findOneAndUpdate (db : Db) (tokenData : Update)
  : outcome UserToken * Db :=
  if negb (castable_date (set_expiresAt tokenData)) then
    (Rejected (Error (cast_message db)), db)
  else
    match down db with
    | Some e => (Rejected e, db)
    | None =>
        let uid := set_userId tokenData in
        let doc := apply_update (docs db !! uid) tokenData in
        (Fulfilled doc,
         {| docs := <[uid := doc]> (docs db);
            down := None;
            cast_message := cast_message db |})
    end.

End UserTokenModel.
Export UserTokenModel.

(* ===================================================================== *)
(** * The Graph API as seen through axios *)
(* ===================================================================== *)

Module Upstream.

(** A query parameter value. *)
Inductive param :=
| PUndefined
| PNum (n : Z)
| PStr (s : jsstring)
| PObj (j : json)
| PStringified (p : param).

Abbreviation Params := (gmap jsstring param).

(** The digits of a number literal up to its exponent mark, read as an
    integer [m], with the number [f] of digits after the point; what
    follows the exponent mark is returned unread. *)
Fixpoint scan_mantissa (l : jsstring) (after_point : bool) (m f : Z)
  : Z * Z * jsstring :=
  match l with
  | [] => (m, f, [])
  | c :: r =>
      if (48 <=? c) && (c <=? 57) then
        scan_mantissa r after_point (10 * m + (c - 48))
          (if after_point then f + 1 else f)
      else if c =? 46 then scan_mantissa r true m f
      else if (c =? 101) || (c =? 69) then (m, f, r)
      else scan_mantissa r after_point m f
  end.

Fixpoint scan_digits (l : jsstring) (n : Z) : Z :=
  match l with
  | [] => n
  | c :: r => scan_digits r (10 * n + (c - 48))
  end.

Definition scan_exponent (l : jsstring) : Z :=
  match l with
  | 45 :: r => - scan_digits r 0
  | 43 :: r => scan_digits r 0
  | _ => scan_digits l 0
  end.

(** The Number that a literal denotes is zero when its digits are all
    zero, and also when its value [m * 10 ^ k] is so small that it rounds
    to zero: at most [2 ^ -1075], half the least positive Number. *)
Definition literal_is_zero (l : jsstring) : bool :=
  let '(m, f, exponent) := scan_mantissa l false 0 0 in
  let k := scan_exponent exponent - f in
  (m =? 0) || ((k <? 0) && (m * 2 ^ 1075 <=? 10 ^ (- k))).

Definition json_truthy (j : json) : bool :=
  match j with
  | JNull => false
  | JBool b => b
  | JNum l => negb (literal_is_zero l)
  | JStr s => truthy_str s
  | JArr _ => true
  | JObj _ => true
  end.

Definition param_truthy (p : param) : bool :=
  match p with
  | PUndefined => false
  | PNum n => negb (n =? 0)
  | PStr s => truthy_str s
  | PObj j => json_truthy j
  | PStringified _ => true
  end.

(** [o.k || d] for a property that may be absent. *)
Definition param_or (o : option param) (d : param) : param :=
  match o with
  | Some p => if param_truthy p then p else d
  | None => d
  end.

(** A string-or-undefined handed over as a parameter. *)
Definition param_of (o : option jsstring) : param :=
  match o with Some s => PStr s | None => PUndefined end.

Abbreviation jsobj := (gmap jsstring json).

(** A Graph API list response: [{ data: [...], paging: {...} }]. *)
Record Page (A : Type) := {
  data : option (list A);
  paging : option json
}.
Arguments data {A} _.
Arguments paging {A} _.

(** The body of the token endpoint. *)
Record TokenData := {
  access_token : option jsstring;
  expires_in : option Z;
  token_type : option jsstring
}.

Module Account.
Record t := { id : jsstring; account_id : jsstring }.
End Account.

Module Form.
Record t := { id : jsstring; name : jsstring; status : jsstring }.
End Form.

(** [axios.get(url, { params })], at the type of the body each caller
    reads.  The value is [response.data]. *)
Record Axios := {
  get_token : jsstring -> Params -> outcome TokenData;
  get_accounts : jsstring -> Params -> outcome (Page Account.t);
  get_forms : jsstring -> Params -> outcome (Page Form.t);
  get_leads : jsstring -> Params -> outcome (Page jsobj);
  get_items : jsstring -> Params -> outcome (Page jsobj)
}.

End Upstream.
Export Upstream.

(* ===================================================================== *)
(** * services/metaApi.js *)
(* ===================================================================== *)

Module MetaApi.

Definition GRAPH_API_BASE : jsstring := lit "https://graph.facebook.com/v18.0".

Definition makeGraphApiRequest {A : Type}
  (get : jsstring -> Params -> outcome A)
  (accessToken endpoint : jsstring) (params : Params) : outcome A :=
  let url := GRAPH_API_BASE ++ endpoint in
  match get url (params ∪ {[ lit "access_token" := PStr accessToken ]}) with
  | Fulfilled response_data => Fulfilled response_data
  | Rejected error =>
      match response error with
      | Some upstream_message =>
          Rejected (Error (lit "Meta API Error: "
                             ++ or_default upstream_message (message error)))
      | None => Rejected error
      end
  end.

Definition getAdAccounts (ax : Axios) (accessToken : jsstring)
  : outcome (Page jsobj) :=
  makeGraphApiRequest (get_items ax) accessToken (lit "/me/adaccounts")
    {[ lit "fields" := PStr (lit "id,name,account_id,currency,timezone_name") ]}.

Definition getCampaigns (ax : Axios) (accessToken adAccountId : jsstring)
  (params : Params) : outcome (Page jsobj) :=
  let accountId :=
    if startsWith adAccountId (lit "act_") then adAccountId
    else lit "act_" ++ adAccountId in
  makeGraphApiRequest (get_items ax) accessToken
    (lit "/" ++ accountId ++ lit "/campaigns")
    (params ∪
     {[ lit "fields" := PStr (lit "id,name,status,objective,daily_budget,lifetime_budget,created_time,updated_time");
        lit "limit" := param_or (params !! lit "limit") (PNum 25) ]}).

Definition getAdSets (ax : Axios) (accessToken adAccountId : jsstring)
  (campaignId : option jsstring) (params : Params) : outcome (Page jsobj) :=
  let accountId :=
    if startsWith adAccountId (lit "act_") then adAccountId
    else lit "act_" ++ adAccountId in
  let endpoint :=
    match campaignId with
    | Some cid =>
        if truthy_str cid then lit "/" ++ cid ++ lit "/adsets"
        else lit "/" ++ accountId ++ lit "/adsets"
    | None => lit "/" ++ accountId ++ lit "/adsets"
    end in
  makeGraphApiRequest (get_items ax) accessToken endpoint
    (params ∪
     {[ lit "fields" := PStr (lit "id,name,status,campaign_id,daily_budget,lifetime_budget,billing_event,optimization_goal,created_time");
        lit "limit" := param_or (params !! lit "limit") (PNum 25) ]}).

Definition getSpend (ax : Axios) (accessToken adAccountId : jsstring)
  (params : Params) : outcome (Page jsobj) :=
  let accountId :=
    if startsWith adAccountId (lit "act_") then adAccountId
    else lit "act_" ++ adAccountId in
  let datePreset := param_or (params !! lit "datePreset") (PStr (lit "last_30d")) in
  let level := param_or (params !! lit "level") (PStr (lit "campaign")) in
  makeGraphApiRequest (get_items ax) accessToken
    (lit "/" ++ accountId ++ lit "/insights")
    (params ∪
     {[ lit "level" := level;
        lit "date_preset" := datePreset;
        lit "fields" := PStr (lit "campaign_id,campaign_name,spend,impressions,clicks,ctr,cpc,cpp,cpm,reach,frequency,actions");
        lit "time_range" :=
          match params !! lit "timeRange" with
          | Some tr => if param_truthy tr then PStringified tr else PUndefined
          | None => PUndefined
          end;
        lit "limit" := param_or (params !! lit "limit") (PNum 25) ]}).

(** [{ ...lead, form_id: form.id, form_name: form.name }]. *)
Definition tag_lead (form : Form.t) (lead : jsobj) : jsobj :=
  <[ lit "form_name" := JStr (Form.name form) ]>
    (<[ lit "form_id" := JStr (Form.id form) ]> lead).

(** The parameters of the forms listing and of each leads fetch. *)
Definition forms_params (params : Params) : Params :=
  {[ lit "fields" := PStr (lit "id,name,status");
     lit "limit" := param_or (params !! lit "limit") (PNum 25) ]}.

Definition leads_params : Params :=
  {[ lit "fields" := PStr (lit "id,created_time,field_data");
     lit "limit" := PNum 10 ]}.

(** One iteration of the loop over the forms; [leads] is the array being
    filled. *)
Definition leads_step (ax : Axios) (accessToken : jsstring)
  (leads : list jsobj) (form : Form.t) : list jsobj :=
  match makeGraphApiRequest (get_leads ax) accessToken
          (lit "/" ++ Form.id form ++ lit "/leads") leads_params with
  | Fulfilled formLeads =>
      match data formLeads with
      | Some ls => leads ++ map (tag_lead form) ls
      | None => leads
      end
  | Rejected _ => leads
  end.

Definition getLeads (ax : Axios) (accessToken adAccountId : jsstring)
  (params : Params) : outcome (Page jsobj) :=
  let accountId :=
    if startsWith adAccountId (lit "act_") then adAccountId
    else lit "act_" ++ adAccountId in
  match makeGraphApiRequest (get_forms ax) accessToken
          (lit "/" ++ accountId ++ lit "/leadgen_forms") (forms_params params) with
  | Rejected e => Rejected e
  | Fulfilled formsResponse =>
      let leads :=
        match data formsResponse with
        | Some forms => fold_left (leads_step ax accessToken) (take 5 forms) []
        | None => []
        end in
      Fulfilled {| data := Some leads; paging := paging formsResponse |}
  end.

End MetaApi.

(* ===================================================================== *)
(** * Express requests and responses *)
(* ===================================================================== *)

Module Http.

(** [req.query], with string values. *)
Abbreviation Query := (gmap jsstring jsstring).

(** A value placed in a response body. *)
Inductive jsval :=
| VUndefined
| VNull
| VBool (b : bool)
| VStr (s : jsstring)
| VDate (ms : Z)
| VJson (j : json)
| VList (items : list jsobj)
| VPage (p : Page jsobj).

(** [res.status(code).json(body)]; the object literal of the source is
    kept as the list of its properties. *)
Record Response := {
  status : Z;
  body : list (string * jsval)
}.

(** [res.json(body)]: the status stays at its default. *)
Definition json_response (b : list (string * jsval)) : Response :=
  {| status := 200; body := b |}.

Definition VOptStr (o : option jsstring) : jsval :=
  match o with Some s => VStr s | None => VNull end.

Definition VOptDate (o : option Z) : jsval :=
  match o with Some ms => VDate ms | None => VNull end.

Definition VOptJson (o : option json) : jsval :=
  match o with Some j => VJson j | None => VUndefined end.

(** [page.data || page]. *)
Definition data_or_self (p : Page jsobj) : jsval :=
  match data p with
  | Some items => VList items
  | None => VPage p
  end.

End Http.
Export Http.

(* ===================================================================== *)
(** * routes/meta.js *)
(* ===================================================================== *)

Module Meta.

(** What the middleware attaches to [req] before calling [next()]. *)
Record Attached := {
  req_userToken : UserToken;
  req_accessToken : jsstring;
  req_adAccountId : option jsstring
}.

Inductive Gate :=
| Next (req : Attached)
| Respond (res : Response).

Definition validateUserAndToken (now : Z) (db : Db) (query : Query) : Gate :=
  let userId := query !! lit "userId" in
  match userId with
  | None =>
      Respond {| status := 400;
                 body := [("success", VBool false);
                          ("error", VStr (lit "userId is required"))] |}
  | Some uid =>
      if negb (truthy_str uid) then
        Respond {| status := 400;
                   body := [("success", VBool false);
                            ("error", VStr (lit "userId is required"))] |}
      else
        match findOne db uid with
        | Rejected _ =>
            Respond {| status := 500;
                       body := [("success", VBool false);
                                ("error", VStr (lit "Failed to validate authentication"))] |}
        | Fulfilled None =>
            Respond {| status := 401;
                       body := [("success", VBool false);
                                ("error", VStr (lit "User not authenticated. Please complete OAuth flow first."))] |}
        | Fulfilled (Some userToken) =>
            if isExpired now userToken then
              Respond {| status := 401;
                         body := [("success", VBool false);
                                  ("error", VStr (lit "Access token expired. Please re-authenticate."));
                                  ("expired", VBool true)] |}
            else
              Next {| req_userToken := userToken;
                      req_accessToken := accessToken userToken;
                      req_adAccountId :=
                        or_else (adAccountId userToken) (query !! lit "adAccountId") |}
        end
  end.

(** [q || d] for a query parameter forwarded upstream. *)
Definition query_or (o : option jsstring) (d : param) : param :=
  if truthy o then param_of o else d.

Definition limit_or_25 (o : option jsstring) : param := query_or o (PNum 25).

Definition error_response (code : Z) (msg : jsstring) : Response :=
  {| status := code;
     body := [("success", VBool false); ("error", VStr msg)] |}.

Definition data_response (p : Page jsobj) : Response :=
  json_response [("success", VBool true);
                 ("data", data_or_self p);
                 ("paging", VOptJson (paging p))].

(** GET /meta/campaigns *)
Definition campaigns (now : Z) (db : Db) (ax : Axios) (query : Query) : Response :=
  match validateUserAndToken now db query with
  | Respond res => res
  | Next req =>
      if negb (truthy (req_adAccountId req)) then
        error_response 400 (lit "adAccountId is required. Provide it in query params or complete OAuth to auto-detect.")
      else
        let adAccountId := default [] (req_adAccountId req) in
        match MetaApi.getCampaigns ax (req_accessToken req) adAccountId
                {[ lit "limit" := limit_or_25 (query !! lit "limit");
                   lit "fields" := param_of (query !! lit "fields") ]} with
        | Fulfilled campaigns => data_response campaigns
        | Rejected error =>
            error_response 500
              (or_default (Some (message error)) (lit "Failed to fetch campaigns"))
        end
  end.

(** GET /meta/spend *)
Definition spend (now : Z) (db : Db) (ax : Axios) (query : Query) : Response :=
  match validateUserAndToken now db query with
  | Respond res => res
  | Next req =>
      if negb (truthy (req_adAccountId req)) then
        error_response 400 (lit "adAccountId is required")
      else
        let adAccountId := default [] (req_adAccountId req) in
        let params : Params :=
          {[ lit "datePreset" :=
               query_or (query !! lit "datePreset") (PStr (lit "last_30d"));
             lit "level" :=
               query_or (query !! lit "level") (PStr (lit "campaign"));
             lit "limit" := limit_or_25 (query !! lit "limit") ]} in
        let fetch (params : Params) :=
          match MetaApi.getSpend ax (req_accessToken req) adAccountId params with
          | Fulfilled spend => data_response spend
          | Rejected error =>
              error_response 500
                (or_default (Some (message error)) (lit "Failed to fetch spend data"))
          end in
        if truthy (query !! lit "timeRange") then
          match Codec.JSON_parse (default [] (query !! lit "timeRange")) with
          | Some tr => fetch (<[ lit "timeRange" := PObj tr ]> params)
          | None =>
              error_response 400
                (lit "Invalid timeRange format. Expected JSON string like: {"
                   ++ [34] ++ lit "since" ++ [34] ++ lit ":"
                   ++ [34] ++ lit "2024-01-01" ++ [34] ++ lit ","
                   ++ [34] ++ lit "until" ++ [34] ++ lit ":"
                   ++ [34] ++ lit "2024-01-31" ++ [34] ++ lit "}")
          end
        else fetch params
  end.

(** GET /meta/leads *)
Definition leads (now : Z) (db : Db) (ax : Axios) (query : Query) : Response :=
  match validateUserAndToken now db query with
  | Respond res => res
  | Next req =>
      if negb (truthy (req_adAccountId req)) then
        error_response 400 (lit "adAccountId is required")
      else
        let adAccountId := default [] (req_adAccountId req) in
        match MetaApi.getLeads ax (req_accessToken req) adAccountId
                {[ lit "limit" := limit_or_25 (query !! lit "limit") ]} with
        | Fulfilled leads => data_response leads
        | Rejected error =>
            error_response 500
              (or_default (Some (message error)) (lit "Failed to fetch leads"))
        end
  end.

(** GET /meta/adsets *)
Definition adsets (now : Z) (db : Db) (ax : Axios) (query : Query) : Response :=
  match validateUserAndToken now db query with
  | Respond res => res
  | Next req =>
      if negb (truthy (req_adAccountId req)) then
        error_response 400 (lit "adAccountId is required")
      else
        let adAccountId := default [] (req_adAccountId req) in
        match MetaApi.getAdSets ax (req_accessToken req) adAccountId
                (query !! lit "campaignId")
                {[ lit "limit" := limit_or_25 (query !! lit "limit");
                   lit "fields" := param_of (query !! lit "fields") ]} with
        | Fulfilled adSets => data_response adSets
        | Rejected error =>
            error_response 500
              (or_default (Some (message error)) (lit "Failed to fetch ad sets"))
        end
  end.

(** GET /meta/accounts *)
Definition accounts (now : Z) (db : Db) (ax : Axios) (query : Query) : Response :=
  match validateUserAndToken now db query with
  | Respond res => res
  | Next req =>
      match MetaApi.getAdAccounts ax (req_accessToken req) with
      | Fulfilled accounts => data_response accounts
      | Rejected error =>
          error_response 500
            (or_default (Some (message error)) (lit "Failed to fetch ad accounts"))
      end
  end.

End Meta.

(* ===================================================================== *)
(** * routes/auth.js *)
(* ===================================================================== *)

Module Auth.

(** [process.env], read once when the module is loaded. *)
Record Config := {
  META_APP_ID : option jsstring;
  META_APP_SECRET : option jsstring;
  META_REDIRECT_URI : option jsstring
}.

(** String interpolation of an environment variable. *)
Definition interpolate (o : option jsstring) : jsstring :=
  match o with Some s => s | None => lit "undefined" end.

Fixpoint join (sep : jsstring) (parts : list jsstring) : jsstring :=
  match parts with
  | [] => []
  | [p] => p
  | p :: rest => p ++ sep ++ join sep rest
  end.

Definition uri_unreserved (c : Z) : bool :=
  Codec.in_range c 65 90 || Codec.in_range c 97 122 || Codec.in_range c 48 57
  || (c =? 45) || (c =? 95) || (c =? 46) || (c =? 33) || (c =? 126)
  || (c =? 42) || (c =? 39) || (c =? 40) || (c =? 41).

Definition upper_hex (n : Z) : Z := if n <? 10 then 48 + n else 55 + n.

Definition percent (bytes : list Z) : jsstring :=
  flat_map (fun b => [37; upper_hex (b / 16); upper_hex (b mod 16)]) bytes.

(** [encodeURIComponent]; [None] is the URIError raised on an unpaired
    surrogate. *)
Fixpoint encodeURIComponent (s : jsstring) : option jsstring :=
  match s with
  | [] => Some []
  | c :: r =>
      if Codec.is_high c then
        match r with
        | d :: r' =>
            if Codec.is_low d then
              match encodeURIComponent r' with
              | Some out =>
                  Some (percent (Codec.utf8_of_code_point
                                   (0x10000 + (c - 0xD800) * 1024 + (d - 0xDC00)))
                          ++ out)
              | None => None
              end
            else None
        | [] => None
        end
      else if Codec.is_low c then None
      else
        match encodeURIComponent r with
        | Some out =>
            Some ((if uri_unreserved c then [c]
                   else percent (Codec.utf8_of_code_point c)) ++ out)
        | None => None
        end
  end.

(** [Buffer.from(JSON.stringify({ userId })).toString('base64')]. *)
Definition encodeState (userId : jsstring) : jsstring :=
  Codec.base64_encode (Codec.utf8_encode (Codec.JSON_stringify_userId userId)).

(** GET /auth/start *)
Definition start (cfg : Config) (query : Query) : Response :=
  let userId := query !! lit "userId" in
  if negb (truthy userId) then
    Meta.error_response 400 (lit "userId is required")
  else if negb (truthy (META_APP_ID cfg)) || negb (truthy (META_APP_SECRET cfg)) then
    Meta.error_response 500 (lit "Meta OAuth credentials not configured")
  else
    let state := encodeState (default [] userId) in
    let scope :=
      join (lit ",") [lit "ads_read"; lit "ads_management";
                      lit "business_management"; lit "leads_retrieval"] in
    match encodeURIComponent (interpolate (META_REDIRECT_URI cfg)) with
    | None => Meta.error_response 500 (lit "Failed to generate authentication URL")
    | Some redirect_uri =>
        let authUrl :=
          lit "https://www.facebook.com/v18.0/dialog/oauth?"
            ++ lit "client_id=" ++ interpolate (META_APP_ID cfg)
            ++ lit "&redirect_uri=" ++ redirect_uri
            ++ lit "&scope=" ++ scope
            ++ lit "&state=" ++ state
            ++ lit "&response_type=code" in
        json_response [("success", VBool true);
                       ("authUrl", VStr authUrl);
                       ("message", VStr (lit "Redirect user to this URL to authenticate"))]
    end.

(** [JSON.parse(Buffer.from(state, 'base64').toString())] followed by
    [decodedState.userId].  [None] is an exception inside the [try]
    (a SyntaxError, or the TypeError of reading a property of [null]);
    [Some None] is [undefined]. *)
Definition decodeState (state : jsstring) : option (option json) :=
  match Codec.JSON_parse (Codec.utf8_decode (Codec.base64_decode state)) with
  | None => None
  | Some decodedState =>
      match decodedState with
      | JNull => None
      | JObj props => Some (props !! lit "userId")
      | _ => Some None
      end
  end.

(** The two readings of [Date.now()] in the callback: when the expiry of
    the first token is computed, and when that of the long-lived one is. *)
Record Clock := {
  now_exchange : Z;
  now_upgrade : Z
}.

(** The callback either answers, leaving the collection in some state, or
    reaches the upsert with a [userId] that is not a string, whose
    treatment by the Mongoose caster is outside this development. *)
Inductive Handled :=
| Done (res : Response) (db : Db)
| Unmodelled.

(** [error.response?.data?.error?.message || error.message || 'Authentication failed'] *)
Definition callback_error (error : JsError) : jsstring :=
  or_default
    (or_else (match response error with Some m => m | None => None end)
             (Some (message error)))
    (lit "Authentication failed").

Definition tokenUrl : jsstring := lit "https://graph.facebook.com/v18.0/oauth/access_token".

Definition tokenParams (cfg : Config) (code : option jsstring) : Params :=
  {[ lit "client_id" := param_of (META_APP_ID cfg);
     lit "client_secret" := param_of (META_APP_SECRET cfg);
     lit "redirect_uri" := param_of (META_REDIRECT_URI cfg);
     lit "code" := param_of code ]}.

Definition longLivedParams (cfg : Config) (access_token : jsstring) : Params :=
  {[ lit "grant_type" := PStr (lit "fb_exchange_token");
     lit "client_id" := param_of (META_APP_ID cfg);
     lit "client_secret" := param_of (META_APP_SECRET cfg);
     lit "fb_exchange_token" := PStr access_token ]}.

Definition accountsUrl : jsstring := lit "https://graph.facebook.com/v18.0/me/adaccounts".

Definition accountsParams (longLivedToken : jsstring) : Params :=
  {[ lit "access_token" := PStr longLivedToken;
     lit "fields" := PStr (lit "id,account_id");
     lit "limit" := PNum 1 ]}.

(** GET /auth/callback *)
Definition callback (cfg : Config) (ax : Axios) (clock : Clock) (db : Db)
  (query : Query) : Handled :=
  let code := query !! lit "code" in
  let state := query !! lit "state" in
  let error := query !! lit "error" in
  if truthy error then
    Done (Meta.error_response 400 (lit "OAuth error: " ++ default [] error)) db
  else if negb (truthy code) || negb (truthy state) then
    Done (Meta.error_response 400 (lit "Missing code or state parameter")) db
  else
    match decodeState (default [] state) with
    | None => Done (Meta.error_response 400 (lit "Invalid state parameter")) db
    | Some userId =>
        match get_token ax tokenUrl (tokenParams cfg code) with
        | Rejected error => Done (Meta.error_response 500 (callback_error error)) db
        | Fulfilled tokenResponse =>
            if negb (truthy (access_token tokenResponse)) then
              Done (Meta.error_response 400 (lit "Failed to obtain access token")) db
            else
              let access_token_ := default [] (access_token tokenResponse) in
              (* Calculate expiration date *)
              let expiresAt :=
                match expires_in tokenResponse with
                | Some n =>
                    if n =? 0 then None
                    else Some (now_exchange clock + n * 1000)
                | None => None
                end in
              (* Get long-lived token *)
              let '(longLivedToken, longLivedExpiresAt) :=
                match get_token ax tokenUrl (longLivedParams cfg access_token_) with
                | Fulfilled longLivedResponse =>
                    if truthy (access_token longLivedResponse) then
                      let longLivedExpiresIn :=
                        match expires_in longLivedResponse with
                        | Some n => if n =? 0 then 5184000 else n
                        | None => 5184000
                        end in
                      (default [] (access_token longLivedResponse),
                       Some (now_upgrade clock + longLivedExpiresIn * 1000))
                    else (access_token_, expiresAt)
                | Rejected _ => (access_token_, expiresAt)
                end in
              (* Get user's ad account *)
              let adAccountId :=
                match get_accounts ax accountsUrl (accountsParams longLivedToken) with
                | Fulfilled accountsResponse =>
                    match data accountsResponse with
                    | Some (first :: _) => Some (Account.id first)
                    | _ => None
                    end
                | Rejected _ => None
                end in
              (* Save or update token in database *)
              match userId with
              | Some (JStr uid) =>
                  let tokenData :=
                    {| set_userId := uid;
                       set_accessToken := longLivedToken;
                       set_expiresAt := longLivedExpiresAt;
                       set_tokenType := or_default (token_type tokenResponse) (lit "Bearer");
                       set_adAccountId := adAccountId |} in
                  match findOneAndUpdate db tokenData with
                  | (Rejected error, db') =>
                      Done (Meta.error_response 500 (callback_error error)) db'
                  | (Fulfilled _, db') =>
                      Done (json_response
                              [("success", VBool true);
                               ("message", VStr (lit "Authentication successful"));
                               ("userId", VStr uid);
                               ("expiresAt", VOptDate longLivedExpiresAt)]) db'
                  end
              | _ => Unmodelled
              end
        end
    end.

(** GET /auth/status *)
Definition status (now : Z) (db : Db) (query : Query) : Response :=
  let userId := query !! lit "userId" in
  if negb (truthy userId) then
    Meta.error_response 400 (lit "userId is required")
  else
    match findOne db (default [] userId) with
    | Rejected _ =>
        Meta.error_response 500 (lit "Failed to check authentication status")
    | Fulfilled None =>
        json_response [("success", VBool false);
                       ("authenticated", VBool false);
                       ("message", VStr (lit "User not authenticated"))]
    | Fulfilled (Some userToken) =>
        let isExpired := isExpired now userToken in
        json_response [("success", VBool true);
                       ("authenticated", VBool (negb isExpired));
                       ("expired", VBool isExpired);
                       ("expiresAt", VOptDate (expiresAt userToken));
                       ("adAccountId", VOptStr (adAccountId userToken))]
    end.

End Auth.

(* ===================================================================== *)
(** * Notions used in the statements, and sample data *)
(* ===================================================================== *)

Module Spec.

(** The account-id normalization rule: prepend the prefix unless the id
    already carries it. *)
Definition normalizeAccountId (adAccountId : jsstring) : jsstring :=
  if startsWith adAccountId (lit "act_") then adAccountId
  else lit "act_" ++ adAccountId.

(** A request carries a usable [userId]. *)
Definition supplies_userId (query : Query) (uid : jsstring) : Prop :=
  query !! lit "userId" = Some uid /\ uid <> [].

(** The value of a property of a response body. *)
Fixpoint body_get (k : string) (b : list (string * jsval)) : option jsval :=
  match b with
  | [] => None
  | (k', v) :: rest => if String.eqb k k' then Some v else body_get k rest
  end.

(** The leads fetch of one form, as [getLeads] issues it. *)
Definition form_fetch (ax : Axios) (accessToken : jsstring) (form : Form.t)
  : outcome (Page jsobj) :=
  MetaApi.makeGraphApiRequest (get_leads ax) accessToken
    (lit "/" ++ Form.id form ++ lit "/leads") MetaApi.leads_params.

(** What one form contributes to the result. *)
Definition form_leads (ax : Axios) (accessToken : jsstring) (form : Form.t)
  : list jsobj :=
  match form_fetch ax accessToken form with
  | Fulfilled page =>
      match data page with
      | Some ls => map (MetaApi.tag_lead form) ls
      | None => []
      end
  | Rejected _ => []
  end.

(** The forms listing, as [getLeads] issues it. *)
Definition forms_listing (ax : Axios) (accessToken adAccountId : jsstring)
  (params : Params) : outcome (Page Form.t) :=
  MetaApi.makeGraphApiRequest (get_forms ax) accessToken
    (lit "/" ++ normalizeAccountId adAccountId ++ lit "/leadgen_forms")
    (MetaApi.forms_params params).

(** The upstream returns no more items than the [limit] it was sent. *)
Definition honours_limit (ax : Axios) : Prop :=
  forall url (P : Params) page ls n,
    get_leads ax url P = Fulfilled page ->
    data page = Some ls ->
    P !! lit "limit" = Some (PNum n) ->
    (length ls <= Z.to_nat n)%nat.

(** The expiry computed from the first token exchange. *)
Definition short_expiry (clock : Auth.Clock) (tokenResponse : TokenData) : option Z :=
  match expires_in tokenResponse with
  | Some n => if n =? 0 then None else Some (Auth.now_exchange clock + n * 1000)
  | None => None
  end.

(** The account found by the discovery call made with [token]. *)
Definition discovered_account (ax : Axios) (token : jsstring) : option jsstring :=
  match get_accounts ax Auth.accountsUrl (Auth.accountsParams token) with
  | Fulfilled accountsResponse =>
      match data accountsResponse with
      | Some (first :: _) => Some (Account.id first)
      | _ => None
      end
  | Rejected _ => None
  end.

(** The outcome of the upgrade step: the token and expiry that go on to
    the account discovery and to the store. *)
Definition upgraded (cfg : Auth.Config) (ax : Axios) (clock : Auth.Clock)
  (short_token : jsstring) (short_exp : option Z) : jsstring * option Z :=
  match get_token ax Auth.tokenUrl (Auth.longLivedParams cfg short_token) with
  | Fulfilled longLivedResponse =>
      if truthy (access_token longLivedResponse) then
        (default [] (access_token longLivedResponse),
         Some (Auth.now_upgrade clock
               + match expires_in longLivedResponse with
                 | Some n => if n =? 0 then 5184000 else n
                 | None => 5184000
                 end * 1000))
      else (short_token, short_exp)
  | Rejected _ => (short_token, short_exp)
  end.

(** The store once [doc] has been written under [uid]. *)
Definition with_doc (db : Db) (uid : jsstring) (doc : UserToken) : Db :=
  {| docs := <[uid := doc]> (docs db);
     down := None;
     cast_message := cast_message db |}.

(** A byte of a Buffer. *)
Definition byte (b : Z) : Prop := 0 <= b < 256.

(** A code unit that is a code point by itself. *)
Definition scalar16 (c : Z) : Prop := 0 <= c < 0xD800 \/ 0xE000 <= c < 0x10000.

(** Well-formed UTF-16: every surrogate is half of a pair. *)
Inductive wf16 : jsstring -> Prop :=
| wf16_nil : wf16 []
| wf16_scalar c r : scalar16 c -> wf16 r -> wf16 (c :: r)
| wf16_pair h l r :
    Codec.is_high h = true -> Codec.is_low l = true -> wf16 r -> wf16 (h :: l :: r).

End Spec.

Module Sample.

Definition alice : UserToken :=
  {| userId := lit "alice";
     accessToken := lit "EAAB-alice";
     refreshToken := None;
     expiresAt := Some 2000;
     tokenType := lit "Bearer";
     adAccountId := Some (lit "act_1") |}.

(** A credential without expiry and without ad account. *)
Definition bob : UserToken :=
  {| userId := lit "bob";
     accessToken := lit "EAAB-bob";
     refreshToken := None;
     expiresAt := None;
     tokenType := lit "Bearer";
     adAccountId := None |}.

Definition db : Db :=
  {| docs := {[ lit "alice" := alice; lit "bob" := bob ]};
     down := None;
     cast_message := lit "Cast to date failed" |}.

Definition no_upstream : Axios :=
  {| get_token := fun _ _ => Rejected (Error (lit "offline"));
     get_accounts := fun _ _ => Rejected (Error (lit "offline"));
     get_forms := fun _ _ => Rejected (Error (lit "offline"));
     get_leads := fun _ _ => Rejected (Error (lit "offline"));
     get_items := fun _ _ => Rejected (Error (lit "offline")) |}.

End Sample.

Module GateSample.

Import Meta.

(** alice has [act_1] stored and asks for [act_2]. *)
Definition override_query : Query :=
  {[ lit "userId" := lit "alice"; lit "adAccountId" := lit "act_2" ]}.

Definition alice_attached : Attached :=
  {| req_userToken := Sample.alice;
     req_accessToken := lit "EAAB-alice";
     req_adAccountId := Some (lit "act_1") |}.

End GateSample.

Module CampaignsSample.

(** carol is unknown; bob is known, not expired, and has no ad account. *)
Definition carol_query : Query := {[ lit "userId" := lit "carol" ]}.
Definition bob_query : Query := {[ lit "userId" := lit "bob" ]}.

End CampaignsSample.

Module LeadsSample.

Definition form (n : string) : Form.t :=
  {| Form.id := lit n; Form.name := lit "Form " ++ lit n; Form.status := lit "ACTIVE" |}.

Definition seven_forms : list Form.t :=
  map form ["f1"; "f2"; "f3"; "f4"; "f5"; "f6"; "f7"]%string.

Definition forms_paging : json := JObj {[ lit "next" := JStr (lit "page-2") ]}.

Definition lead (n : string) (url : jsstring) : jsobj :=
  {[ lit "id" := JStr (lit n); lit "from" := JStr url ]}.

Definition requested_limit (P : Params) : nat :=
  match P !! lit "limit" with
  | Some (PNum n) => Z.to_nat n
  | _ => 25%nat
  end.

(** Seven forms are listed; the leads of [f3] cannot be fetched; every
    other form has two leads, of which at most [limit] are returned. *)
Definition upstream : Axios :=
  {| get_token := fun _ _ => Rejected (Error (lit "unused"));
     get_accounts := fun _ _ => Rejected (Error (lit "unused"));
     get_forms := fun _ _ =>
       Fulfilled {| data := Some seven_forms; paging := Some forms_paging |};
     get_leads := fun url P =>
       if bool_decide (url = MetaApi.GRAPH_API_BASE ++ lit "/f3/leads") then
         Rejected {| message := lit "Request failed with status code 500";
                     response := Some (Some (lit "Service temporarily unavailable")) |}
       else
         Fulfilled {| data := Some (take (requested_limit P)
                                      [lead "l1" url; lead "l2" url]);
                      paging := None |};
     get_items := fun _ _ => Rejected (Error (lit "unused")) |}.

(** An upstream that pays no attention to [limit]: every form has
    eleven leads and all of them are returned. *)
Definition eleven_leads (url : jsstring) : list jsobj :=
  map (fun n => lead n url)
    ["l1"; "l2"; "l3"; "l4"; "l5"; "l6"; "l7"; "l8"; "l9"; "l10"; "l11"]%string.

Definition unlimited_upstream : Axios :=
  {| get_token := fun _ _ => Rejected (Error (lit "unused"));
     get_accounts := fun _ _ => Rejected (Error (lit "unused"));
     get_forms := fun _ _ =>
       Fulfilled {| data := Some seven_forms; paging := Some forms_paging |};
     get_leads := fun url _ =>
       Fulfilled {| data := Some (eleven_leads url); paging := None |};
     get_items := fun _ _ => Rejected (Error (lit "unused")) |}.

End LeadsSample.

Module CallbackSample.

Import Auth.

Definition cfg : Config :=
  {| META_APP_ID := Some (lit "1234567890");
     META_APP_SECRET := Some (lit "s3cret");
     META_REDIRECT_URI := Some (lit "https://bot.example/auth/callback") |}.

(** The redirect for user [abc]: [state] is the base64 of the envelope. *)
Definition query : Query :=
  {[ lit "code" := lit "AQDx"; lit "state" := lit "eyJ1c2VySWQiOiJhYmMifQ==" ]}.

Definition clock : Clock := {| now_exchange := 1000; now_upgrade := 1500 |}.

Definition short_response : TokenData :=
  {| access_token := Some (lit "short-lived");
     expires_in := Some 3600;
     token_type := Some (lit "bearer") |}.

(** A long-lived token without [expires_in]. *)
Definition long_response : TokenData :=
  {| access_token := Some (lit "long-lived");
     expires_in := None;
     token_type := None |}.

Definition is_upgrade (P : Params) : bool :=
  match P !! lit "grant_type" with Some _ => true | None => false end.

Definition one_account : Page Account.t :=
  {| data := Some [ {| Account.id := lit "act_77"; Account.account_id := lit "77" |} ];
     paging := None |}.

Definition upstream (upgrade : outcome TokenData) : Axios :=
  {| get_token := fun _ P => if is_upgrade P then upgrade else Fulfilled short_response;
     get_accounts := fun _ _ => Fulfilled one_account;
     get_forms := fun _ _ => Rejected (Error (lit "unused"));
     get_leads := fun _ _ => Rejected (Error (lit "unused"));
     get_items := fun _ _ => Rejected (Error (lit "unused")) |}.

Definition outage : JsError :=
  {| message := lit "Request failed with status code 400";
     response := Some (Some (lit "Invalid OAuth access token.")) |}.

End CallbackSample.

(* ===================================================================== *)
(** * Notions for the routes as a whole, and more sample data *)
(* ===================================================================== *)

Module RouteSpec.

(** The [catch] of [makeGraphApiRequest], applied to what [axios.get]
    gave. *)
Definition graph_error {A : Type} (o : outcome A) : outcome A :=
  match o with
  | Fulfilled response_data => Fulfilled response_data
  | Rejected error =>
      match response error with
      | Some upstream_message =>
          Rejected (Error (lit "Meta API Error: "
                             ++ or_default upstream_message (message error)))
      | None => Rejected error
      end
  end.

(** A request that passes the gate with the credential [tok] and for which
    the ad account [acct] is resolved. *)
Definition authorized (now : Z) (db : Db) (query : Query) (tok : UserToken)
  (acct : jsstring) : Prop :=
  exists uid,
    Spec.supplies_userId query uid /\
    findOne db uid = Fulfilled (Some tok) /\
    isExpired now tok = false /\
    or_else (adAccountId tok) (query !! lit "adAccountId") = Some acct /\
    acct <> [].

(** A request that passes the gate with [tok] but resolves no ad account. *)
Definition authorized_without_account (now : Z) (db : Db) (query : Query)
  (tok : UserToken) : Prop :=
  exists uid,
    Spec.supplies_userId query uid /\
    findOne db uid = Fulfilled (Some tok) /\
    isExpired now tok = false /\
    truthy (or_else (adAccountId tok) (query !! lit "adAccountId")) = false.

(** The answer of a route whose upstream call was rejected. *)
Definition route_failure (error : JsError) (fallback : jsstring) : Response :=
  Meta.error_response 500 (or_default (Some (message error)) fallback).

Definition graph_url (endpoint : jsstring) : jsstring :=
  MetaApi.GRAPH_API_BASE ++ endpoint.

(** The text of the 400 answer of /spend to a [timeRange] that is not
    JSON. *)
Definition invalid_timeRange : jsstring :=
  lit "Invalid timeRange format. Expected JSON string like: {"
    ++ [34] ++ lit "since" ++ [34] ++ lit ":"
    ++ [34] ++ lit "2024-01-01" ++ [34] ++ lit ","
    ++ [34] ++ lit "until" ++ [34] ++ lit ":"
    ++ [34] ++ lit "2024-01-31" ++ [34] ++ lit "}".

(** A redirect that reaches the upsert: well-formed, its code exchanged
    for a token, the store reachable. *)
Definition reaches_upsert (cfg : Auth.Config) (ax : Axios) (db : Db) (query : Query)
  (uid : jsstring) (short : TokenData) (short_token : jsstring) : Prop :=
  exists code state : jsstring,
    truthy (query !! lit "error") = false /\
    query !! lit "code" = Some code /\ code <> [] /\
    query !! lit "state" = Some state /\ state <> [] /\
    Auth.decodeState state = Some (Some (JStr uid)) /\
    get_token ax Auth.tokenUrl (Auth.tokenParams cfg (Some code)) = Fulfilled short /\
    access_token short = Some short_token /\ short_token <> [] /\
    down db = None.

(** The expiry that the callback hands to the store is a valid Date, or
    there is none. *)
Definition storable (cfg : Auth.Config) (ax : Axios) (clock : Auth.Clock)
  (short : TokenData) (short_token : jsstring) : Prop :=
  castable_date
    (snd (Spec.upgraded cfg ax clock short_token (Spec.short_expiry clock short)))
  = true.

(** The credential the callback stores. *)
Definition stored_credential (cfg : Auth.Config) (ax : Axios) (clock : Auth.Clock) (db : Db)
  (uid : jsstring) (short : TokenData) (short_token : jsstring) : UserToken :=
  let up := Spec.upgraded cfg ax clock short_token (Spec.short_expiry clock short) in
  apply_update (docs db !! uid)
    {| set_userId := uid;
       set_accessToken := fst up;
       set_expiresAt := snd up;
       set_tokenType := or_default (token_type short) (lit "Bearer");
       set_adAccountId := Spec.discovered_account ax (fst up) |}.

End RouteSpec.

Module RouteSample.

(** A store that cannot be reached. *)
Definition unreachable : Db :=
  {| docs := docs Sample.db;
     down := Some (Error (lit "connect ECONNREFUSED 127.0.0.1:27017"));
     cast_message := cast_message Sample.db |}.

Definition alice_query : Query := {[ lit "userId" := lit "alice" ]}.

(** [?userId=] : present and empty. *)
Definition empty_userId_query : Query := {[ lit "userId" := [] ]}.

(** A request without parameters. *)
Definition no_query : Query := ∅.

(** Every Graph API call is answered with an HTTP error. *)
Definition graph_down : Axios :=
  {| get_token := fun _ _ => Rejected CallbackSample.outage;
     get_accounts := fun _ _ => Rejected CallbackSample.outage;
     get_forms := fun _ _ => Rejected CallbackSample.outage;
     get_leads := fun _ _ => Rejected CallbackSample.outage;
     get_items := fun _ _ => Rejected CallbackSample.outage |}.

Definition malformed_range_query : Query :=
  {[ lit "userId" := lit "alice"; lit "timeRange" := lit "{since" ]}.

Definition campaign_query : Query :=
  {[ lit "userId" := lit "bob"; lit "campaignId" := lit "120330000000000001" ]}.

Definition abc_query : Query := {[ lit "userId" := lit "abc" ]}.

(** A long-lived token that says how long it lives. *)
Definition long_response_30_days : TokenData :=
  {| access_token := Some (lit "long-lived");
     expires_in := Some 2592000;
     token_type := None |}.

(** The user has no ad account. *)
Definition upstream_without_accounts : Axios :=
  {| get_token := fun _ P =>
       if CallbackSample.is_upgrade P then Rejected CallbackSample.outage
       else Fulfilled CallbackSample.short_response;
     get_accounts := fun _ _ => Fulfilled {| data := Some []; paging := None |};
     get_forms := fun _ _ => Rejected (Error (lit "unused"));
     get_leads := fun _ _ => Rejected (Error (lit "unused"));
     get_items := fun _ _ => Rejected (Error (lit "unused")) |}.

(** A first exchange whose [expires_in] puts the expiry beyond the last
    Date, and no upgrade. *)
Definition far_future_response : TokenData :=
  {| access_token := Some (lit "short-lived");
     expires_in := Some 9000000000000;
     token_type := None |}.

Definition upstream_far_future : Axios :=
  {| get_token := fun _ P =>
       if CallbackSample.is_upgrade P then Rejected CallbackSample.outage
       else Fulfilled far_future_response;
     get_accounts := fun _ _ => Fulfilled CallbackSample.one_account;
     get_forms := fun _ _ => Rejected (Error (lit "unused"));
     get_leads := fun _ _ => Rejected (Error (lit "unused"));
     get_items := fun _ _ => Rejected (Error (lit "unused")) |}.

End RouteSample.

(* ===================================================================== *)
(** * Proof automation *)
(* ===================================================================== *)

(** Case analysis on the integer comparisons of the goal. *)
Ltac zcase :=
  match goal with
  | |- context [?a <? ?b] => destruct (Z.ltb_spec a b)
  | |- context [?a <=? ?b] => destruct (Z.leb_spec a b)
  | |- context [?a =? ?b] => destruct (Z.eqb_spec a b)
  end; cbn [andb orb negb]; try lia.

Ltac zcases := repeat zcase.

Ltac divmod := Z.to_euclidean_division_equations; lia.

(** Two literal keys are different strings. *)
Ltac keys_differ := vm_compute; discriminate.

(* ===================================================================== *)
(** * Known answers of the runtime primitives *)
(* ===================================================================== *)

Section KnownAnswers.

Import Codec.

Example state_of_abc : Auth.encodeState (lit "abc") = lit "eyJ1c2VySWQiOiJhYmMifQ==".
Proof. vm_compute. reflexivity. Qed.

Example base64_padding :
  base64_encode (lit "M") = lit "TQ==" /\ base64_encode (lit "Ma") = lit "TWE=" /\
  base64_encode (lit "Man") = lit "TWFu".
Proof. repeat split; vm_compute; reflexivity. Qed.

(** Blanks are skipped, the URL-safe alphabet is read, and decoding stops
    at the padding. *)
Example base64_lenient :
  base64_decode (lit "TW E=") = lit "Ma" /\
  base64_decode (lit "-_8=TWFu") = [251; 255].
Proof. repeat split; vm_compute; reflexivity. Qed.

Example utf8_of_emoji : utf8_encode [0xD83D; 0xDE00] = [0xF0; 0x9F; 0x98; 0x80].
Proof. vm_compute. reflexivity. Qed.

Example utf8_of_lone_surrogate : utf8_encode [0xD800; 65] = [0xEF; 0xBF; 0xBD; 65].
Proof. vm_compute. reflexivity. Qed.

Example utf8_decode_euro : utf8_decode [0xE2; 0x82; 0xAC] = [0x20AC].
Proof. vm_compute. reflexivity. Qed.

(** An encoded surrogate is three ill-formed bytes; a truncated sequence
    is one. *)
Example utf8_decode_ill_formed :
  utf8_decode [0xED; 0xA0; 0x80] = [0xFFFD; 0xFFFD; 0xFFFD] /\
  utf8_decode [0xE2; 0x82; 65] = [0xFFFD; 65] /\
  utf8_decode [0xC0; 0x80] = [0xFFFD; 0xFFFD].
Proof. repeat split; vm_compute; reflexivity. Qed.

Example quote_escapes :
  QuoteJSONString [0xD800; 10; 0x1F; 0xE9] = [34] ++ lit "\ud800\n\u001f" ++ [0xE9; 34].
Proof. vm_compute. reflexivity. Qed.

Example parse_array :
  JSON_parse (lit " [1, -2.5e+3, true, null, []] ")
    = Some (JArr [JNum (lit "1"); JNum (lit "-2.5e+3"); JBool true; JNull; JArr []]).
Proof. vm_compute. reflexivity. Qed.

Example parse_rejects :
  JSON_parse (lit "01") = None /\ JSON_parse (lit "[1,]") = None /\
  JSON_parse (lit "nul") = None /\ JSON_parse (lit "1.") = None /\
  JSON_parse (lit "") = None /\ JSON_parse (lit "{} {}") = None.
Proof. repeat split; vm_compute; reflexivity. Qed.

(** Of two members with the same key the later one stays. *)
Example parse_duplicate_key :
  JSON_parse (lit "{" ++ [34] ++ lit "a" ++ [34] ++ lit ":1," ++ [34] ++ lit "a"
                ++ [34] ++ lit ": [2]}")
    = Some (JObj {[ lit "a" := JArr [JNum (lit "2")] ]}).
Proof. vm_compute. reflexivity. Qed.

(** States that are base64 of [null], of [5] and of nothing: the first and
    the last raise inside the [try], the second has no [userId]. *)
Example decodeState_corner_cases :
  Auth.decodeState (lit "bnVsbA==") = None /\
  Auth.decodeState (lit "NQ==") = Some None /\
  Auth.decodeState (lit "!!!") = None.
Proof. repeat split; vm_compute; reflexivity. Qed.

(** A code unit above 255 is read by its low byte: U+0165 counts as
    [e]. *)
Example decodeState_low_byte :
  Auth.decodeState (0x165 :: lit "yJ1c2VySWQiOiJhYmMifQ==")
    = Some (Some (JStr (lit "abc"))) /\
  Auth.decodeState (lit "eyJ1c2VySWQiOiJhYmMifQ" ++ [0x141] ++ lit "==") = None.
Proof. split; vm_compute; reflexivity. Qed.

(** A literal too small for a Number is zero, hence falsy. *)
Example json_truthy_numbers :
  json_truthy (JNum (lit "1e-400")) = false /\
  json_truthy (JNum (lit "-0.00e7")) = false /\
  json_truthy (JNum (lit "5e-324")) = true /\
  json_truthy (JNum (lit "0.1E-2")) = true.
Proof. repeat split; vm_compute; reflexivity. Qed.

End KnownAnswers.

(* ===================================================================== *)
(** * Credential expiry *)
(* ===================================================================== *)

(** C3. A credential without [expiresAt] is not expired at any time; one
    whose [expiresAt] lies strictly before the current time is expired;
    one whose [expiresAt] lies strictly after it is not. *)
Theorem isExpired_cases (this : UserToken) (now : Z) :
  (expiresAt this = None -> isExpired now this = false) /\
  (forall e, expiresAt this = Some e -> e < now -> isExpired now this = true) /\
  (forall e, expiresAt this = Some e -> now < e -> isExpired now this = false).
Proof.
  unfold isExpired. repeat split.
  - intros ->. reflexivity.
  - intros e -> Hlt. apply Z.geb_le. lia.
  - intros e -> Hlt. destruct (now >=? e) eqn:E; [|reflexivity].
    apply Z.geb_le in E. lia.
Qed.

Lemma isExpired_cases_witness :
  isExpired 5 Sample.bob = false /\
  isExpired 2001 Sample.alice = true /\
  isExpired 1999 Sample.alice = false.
Proof.
  split; [|split].
  - apply (proj1 (isExpired_cases Sample.bob 5)). reflexivity.
  - apply (proj1 (proj2 (isExpired_cases Sample.alice 2001)) 2000); [reflexivity | lia].
  - apply (proj2 (proj2 (isExpired_cases Sample.alice 1999)) 2000); [reflexivity | lia].
Defined.

(* ===================================================================== *)
(** * The request gate and the routes behind it *)
(* ===================================================================== *)

Section Gate.

Import Meta Spec.

(** A request passes the gate exactly when it names a stored, unexpired
    credential; that credential is the one attached to the request. *)
Lemma gate_next now db query req :
  validateUserAndToken now db query = Next req ->
  exists uid,
    supplies_userId query uid /\
    findOne db uid = Fulfilled (Some (req_userToken req)) /\
    isExpired now (req_userToken req) = false /\
    req_accessToken req = accessToken (req_userToken req) /\
    req_adAccountId req =
      or_else (adAccountId (req_userToken req)) (query !! lit "adAccountId").
Proof.
  unfold validateUserAndToken, supplies_userId.
  destruct (query !! lit "userId") as [uid|] eqn:Hq; [|discriminate].
  destruct uid as [|c uid']; [discriminate|]. cbn [truthy_str negb].
  destruct (findOne db (c :: uid')) as [[tok|]|e] eqn:Hf; try discriminate.
  destruct (isExpired now tok) eqn:He; [discriminate|].
  intros [= <-]. exists (c :: uid'). cbn. repeat split; auto; discriminate.
Qed.

Lemma gate_passes now db query uid tok :
  supplies_userId query uid ->
  findOne db uid = Fulfilled (Some tok) ->
  isExpired now tok = false ->
  validateUserAndToken now db query =
    Next {| req_userToken := tok;
            req_accessToken := accessToken tok;
            req_adAccountId := or_else (adAccountId tok) (query !! lit "adAccountId") |}.
Proof.
  intros [Hq Hne] Hf He. unfold validateUserAndToken. rewrite Hq.
  destruct uid as [|c uid']; [congruence|]. cbn [truthy_str negb].
  rewrite Hf, He. reflexivity.
Qed.

Lemma gate_unknown_user now db query uid :
  supplies_userId query uid ->
  findOne db uid = Fulfilled None ->
  validateUserAndToken now db query =
    Respond (error_response 401
               (lit "User not authenticated. Please complete OAuth flow first.")).
Proof.
  intros [Hq Hne] Hf. unfold validateUserAndToken. rewrite Hq.
  destruct uid as [|c uid']; [congruence|]. cbn [truthy_str negb].
  rewrite Hf. reflexivity.
Qed.

(** Without a usable [userId] the gate answers 400 before any lookup. *)
Lemma gate_missing_userId now db query :
  truthy (query !! lit "userId") = false ->
  validateUserAndToken now db query =
    Respond (error_response 400 (lit "userId is required")).
Proof.
  unfold validateUserAndToken.
  destruct (query !! lit "userId") as [[|c uid]|]; [reflexivity|discriminate|reflexivity].
Qed.

End Gate.

(** C1.  The claim has an explicit [adAccountId] query parameter override
    the stored ad-account id.  The gate does the opposite, by the order
    of its [||]: alice's credential stores [act_1], her request asks for
    [act_2] and passes the gate, and the handler is given [act_1]. *)
Theorem gate_query_does_not_override :
  findOne Sample.db (lit "alice") = Fulfilled (Some Sample.alice) /\
  adAccountId Sample.alice = Some (lit "act_1") /\
  GateSample.override_query !! lit "adAccountId" = Some (lit "act_2") /\
  Meta.validateUserAndToken 1000 Sample.db GateSample.override_query
    = Meta.Next GateSample.alice_attached /\
  Meta.req_adAccountId GateSample.alice_attached = Some (lit "act_1") /\
  Meta.req_adAccountId GateSample.alice_attached
    <> GateSample.override_query !! lit "adAccountId".
Proof.
  repeat split; try (vm_compute; reflexivity).
  vm_compute. discriminate.
Qed.

Section Campaigns.

Import Meta Spec.

(** C4. On /meta/campaigns, a request whose [userId] has no stored
    credential is answered 401 with the not-authenticated error; a request
    whose [userId] has an unexpired credential, with no ad-account id
    stored and none in the query, is answered 400 with the validation
    error.  Neither answer is a 500, and the second is not a 401. *)
Theorem campaigns_unknown_user_and_missing_account now db ax query uid :
  supplies_userId query uid ->
  (findOne db uid = Fulfilled None ->
   campaigns now db ax query =
     {| status := 401;
        body := [("success", VBool false);
                 ("error", VStr (lit "User not authenticated. Please complete OAuth flow first."))] |}
   /\ status (campaigns now db ax query) <> 500) /\
  (forall tok,
     findOne db uid = Fulfilled (Some tok) ->
     isExpired now tok = false ->
     truthy (adAccountId tok) = false ->
     truthy (query !! lit "adAccountId") = false ->
     campaigns now db ax query =
       {| status := 400;
          body := [("success", VBool false);
                   ("error", VStr (lit "adAccountId is required. Provide it in query params or complete OAuth to auto-detect."))] |}
     /\ status (campaigns now db ax query) <> 401
     /\ status (campaigns now db ax query) <> 500).
Proof.
  intros Hu. split.
  - intros Hf. unfold campaigns.
    rewrite (gate_unknown_user now db query uid Hu Hf). split; [reflexivity|].
    cbn. lia.
  - intros tok Hf He Hs Hq. unfold campaigns.
    rewrite (gate_passes now db query uid tok Hu Hf He).
    cbn [req_adAccountId]. unfold or_else. rewrite Hs, Hq.
    cbn. repeat split; lia.
Qed.

End Campaigns.

Lemma campaigns_unknown_user_and_missing_account_witness :
  status (Meta.campaigns 1000 Sample.db Sample.no_upstream CampaignsSample.carol_query) = 401 /\
  status (Meta.campaigns 1000 Sample.db Sample.no_upstream CampaignsSample.bob_query) = 400.
Proof.
  split.
  - assert (Hu : Spec.supplies_userId CampaignsSample.carol_query (lit "carol")).
    { split; [vm_compute; reflexivity | discriminate]. }
    destruct (campaigns_unknown_user_and_missing_account
                1000 Sample.db Sample.no_upstream _ _ Hu) as [H _].
    pose proof (H ltac:(vm_compute; reflexivity)) as [E _].
    rewrite E. reflexivity.
  - assert (Hu : Spec.supplies_userId CampaignsSample.bob_query (lit "bob")).
    { split; [vm_compute; reflexivity | discriminate]. }
    destruct (campaigns_unknown_user_and_missing_account
                1000 Sample.db Sample.no_upstream _ _ Hu) as [_ H].
    pose proof (H Sample.bob ltac:(vm_compute; reflexivity) ltac:(reflexivity)
                  ltac:(reflexivity) ltac:(vm_compute; reflexivity)) as [E _].
    rewrite E. reflexivity.
Defined.

Section Status.

Import Spec.

(** C9. On /auth/status, a request whose [userId] has no stored credential
    is answered with status 200 and the body
    [{success: false, authenticated: false, message}]: not a 401, and with
    no [error] property, so not the error envelope. *)
Theorem status_unauthenticated_is_200 now db query uid :
  supplies_userId query uid ->
  findOne db uid = Fulfilled None ->
  Auth.status now db query =
    {| Http.status := 200;
       body := [("success", VBool false);
                ("authenticated", VBool false);
                ("message", VStr (lit "User not authenticated"))] |}
  /\ Http.status (Auth.status now db query) <> 401
  /\ body_get "error" (body (Auth.status now db query)) = None.
Proof.
  intros [Hq Hne] Hf. unfold Auth.status. rewrite Hq.
  destruct uid as [|c uid']; [congruence|].
  change (default [] (Some (c :: uid'))) with (c :: uid').
  cbn [truthy truthy_str negb]. rewrite Hf.
  repeat split. cbn. lia.
Qed.

End Status.

Lemma status_unauthenticated_is_200_witness :
  Http.status (Auth.status 1000 Sample.db CampaignsSample.carol_query) = 200.
Proof.
  assert (Hu : Spec.supplies_userId CampaignsSample.carol_query (lit "carol")).
  { split; [vm_compute; reflexivity | discriminate]. }
  pose proof (status_unauthenticated_is_200 1000 Sample.db _ _ Hu
                ltac:(vm_compute; reflexivity)) as [E _].
  rewrite E. reflexivity.
Defined.

(* ===================================================================== *)
(** * The upstream client *)
(* ===================================================================== *)

Section UpstreamClient.

Import MetaApi Spec.

Lemma startsWith_app (p s : jsstring) : startsWith (p ++ s) p = true.
Proof.
  induction p as [|c p IH]; [reflexivity|].
  cbn. rewrite Z.eqb_refl. exact IH.
Qed.

Lemma normalize_prefixed id :
  startsWith id (lit "act_") = true -> normalizeAccountId id = id.
Proof. unfold normalizeAccountId. intros ->. reflexivity. Qed.

Lemma normalize_unprefixed id :
  startsWith id (lit "act_") = false -> normalizeAccountId id = lit "act_" ++ id.
Proof. unfold normalizeAccountId. intros ->. reflexivity. Qed.

Lemma normalize_has_prefix id :
  startsWith (normalizeAccountId id) (lit "act_") = true.
Proof.
  unfold normalizeAccountId.
  destruct (startsWith id (lit "act_")) eqn:E; [exact E | apply startsWith_app].
Qed.

Lemma normalize_idempotent id :
  normalizeAccountId (normalizeAccountId id) = normalizeAccountId id.
Proof. apply normalize_prefixed, normalize_has_prefix. Qed.

(** What one iteration adds to the array. *)
Lemma leads_step_app ax tok acc form :
  leads_step ax tok acc form = acc ++ form_leads ax tok form.
Proof.
  unfold leads_step, form_leads, form_fetch.
  destruct (makeGraphApiRequest _ _ _ _) as [page|e].
  - destruct (data page); [reflexivity | symmetry; apply app_nil_r].
  - symmetry; apply app_nil_r.
Qed.

Lemma leads_loop ax tok forms acc :
  fold_left (leads_step ax tok) forms acc = acc ++ flat_map (form_leads ax tok) forms.
Proof.
  revert acc. induction forms as [|f forms IH]; intros acc; cbn [fold_left flat_map].
  - symmetry; apply app_nil_r.
  - rewrite IH, leads_step_app, <- app_assoc. reflexivity.
Qed.

(** [getLeads] in closed form: one listing, then the contributions of the
    first five forms, in order. *)
Lemma getLeads_closed_form ax tok id params :
  getLeads ax tok id params =
    match forms_listing ax tok id params with
    | Rejected e => Rejected e
    | Fulfilled fp =>
        Fulfilled
          {| data := Some (match data fp with
                           | Some forms => flat_map (form_leads ax tok) (take 5 forms)
                           | None => []
                           end);
             paging := paging fp |}
    end.
Proof.
  unfold getLeads, forms_listing, normalizeAccountId.
  destruct (makeGraphApiRequest _ _ _ _) as [fp|e]; [|reflexivity].
  destruct (data fp) as [forms|]; [|reflexivity].
  rewrite leads_loop. reflexivity.
Qed.

(** C6. An ad-account id without the [act_] prefix gets it prepended, one
    that has it is left alone, so normalizing twice changes nothing; and
    the campaigns, ad-sets, spend and leads operations address the
    upstream by the normalized id. *)
Theorem account_id_normalized_before_upstream_call ax tok id params campaignId :
  (startsWith id (lit "act_") = false -> normalizeAccountId id = lit "act_" ++ id) /\
  (startsWith id (lit "act_") = true -> normalizeAccountId id = id) /\
  normalizeAccountId (normalizeAccountId id) = normalizeAccountId id /\
  (exists P, getCampaigns ax tok id params =
     makeGraphApiRequest (get_items ax) tok
       (lit "/" ++ normalizeAccountId id ++ lit "/campaigns") P) /\
  (truthy campaignId = false ->
   exists P, getAdSets ax tok id campaignId params =
     makeGraphApiRequest (get_items ax) tok
       (lit "/" ++ normalizeAccountId id ++ lit "/adsets") P) /\
  (exists P, getSpend ax tok id params =
     makeGraphApiRequest (get_items ax) tok
       (lit "/" ++ normalizeAccountId id ++ lit "/insights") P) /\
  getLeads ax tok id params =
    match makeGraphApiRequest (get_forms ax) tok
            (lit "/" ++ normalizeAccountId id ++ lit "/leadgen_forms")
            (forms_params params) with
    | Rejected e => Rejected e
    | Fulfilled fp =>
        Fulfilled
          {| data := Some (match data fp with
                           | Some forms => flat_map (form_leads ax tok) (take 5 forms)
                           | None => []
                           end);
             paging := paging fp |}
    end /\
  getCampaigns ax tok (normalizeAccountId id) params = getCampaigns ax tok id params /\
  getAdSets ax tok (normalizeAccountId id) campaignId params
    = getAdSets ax tok id campaignId params /\
  getSpend ax tok (normalizeAccountId id) params = getSpend ax tok id params /\
  getLeads ax tok (normalizeAccountId id) params = getLeads ax tok id params.
Proof.
  split; [apply normalize_unprefixed|].
  split; [apply normalize_prefixed|].
  split; [apply normalize_idempotent|].
  split; [eexists; reflexivity|].
  split.
  { intros Hc. eexists. unfold getAdSets, normalizeAccountId.
    destruct campaignId as [cid|]; [|reflexivity].
    cbn in Hc. rewrite Hc. reflexivity. }
  split; [eexists; reflexivity|].
  split; [apply getLeads_closed_form|].
  unfold getCampaigns, getAdSets, getSpend, getLeads.
  rewrite normalize_has_prefix. repeat split; reflexivity.
Qed.

End UpstreamClient.

Lemma account_id_normalized_before_upstream_call_witness :
  Spec.normalizeAccountId (lit "123456789") = lit "act_123456789" /\
  Spec.normalizeAccountId (lit "act_123456789") = lit "act_123456789".
Proof.
  pose proof (account_id_normalized_before_upstream_call Sample.no_upstream
                (lit "EAAB") (lit "123456789") ∅ None) as (H1 & _).
  pose proof (account_id_normalized_before_upstream_call Sample.no_upstream
                (lit "EAAB") (lit "act_123456789") ∅ None) as (_ & H2 & _).
  split.
  - rewrite (H1 ltac:(reflexivity)). reflexivity.
  - rewrite (H2 ltac:(reflexivity)). reflexivity.
Defined.

Section Leads.

Import MetaApi Spec.

Lemma tag_lead_form_id form raw :
  tag_lead form raw !! lit "form_id" = Some (JStr (Form.id form)).
Proof.
  unfold tag_lead. rewrite lookup_insert_ne by (vm_compute; discriminate).
  apply lookup_insert_eq.
Qed.

Lemma tag_lead_form_name form raw :
  tag_lead form raw !! lit "form_name" = Some (JStr (Form.name form)).
Proof. unfold tag_lead. apply lookup_insert_eq. Qed.

Lemma form_leads_elem ax tok form lead :
  lead ∈ form_leads ax tok form <->
  exists page ls raw,
    form_fetch ax tok form = Fulfilled page /\ data page = Some ls /\
    raw ∈ ls /\ lead = tag_lead form raw.
Proof.
  unfold form_leads. split.
  - destruct (form_fetch ax tok form) as [page|e]; [|intros H; inversion H].
    destruct (data page) as [ls|] eqn:Hd; [|intros H; inversion H].
    rewrite list_elem_of_In, in_map_iff. intros (raw & <- & Hin).
    exists page, ls, raw. rewrite list_elem_of_In. auto.
  - intros (page & ls & raw & -> & -> & Hin & ->).
    rewrite list_elem_of_In. apply in_map. apply list_elem_of_In, Hin.
Qed.

(** C2. Whatever the length of the form list, the leads operation fetches
    the leads of its first five forms only; every lead it returns is a lead
    of one of those forms tagged with that form's id and name; a form whose
    fetch fails contributes nothing, and the leads of every other processed
    form are returned: the operation itself still succeeds. *)
Theorem leads_first_five_tagged_failures_skipped ax tok id params fp forms :
  forms_listing ax tok id params = Fulfilled fp ->
  data fp = Some forms ->
  exists leads,
    getLeads ax tok id params = Fulfilled {| data := Some leads; paging := paging fp |} /\
    leads = flat_map (form_leads ax tok) (take 5 forms) /\
    (forall lead, lead ∈ leads ->
       exists form page ls raw,
         form ∈ take 5 forms /\
         form_fetch ax tok form = Fulfilled page /\ data page = Some ls /\ raw ∈ ls /\
         lead = tag_lead form raw /\
         lead !! lit "form_id" = Some (JStr (Form.id form)) /\
         lead !! lit "form_name" = Some (JStr (Form.name form))) /\
    (forall form e, form_fetch ax tok form = Rejected e -> form_leads ax tok form = []) /\
    (forall form page ls raw,
       form ∈ take 5 forms ->
       form_fetch ax tok form = Fulfilled page -> data page = Some ls -> raw ∈ ls ->
       tag_lead form raw ∈ leads).
Proof.
  intros Hl Hd. eexists. split; [|split; [reflexivity|]].
  { rewrite getLeads_closed_form, Hl, Hd. reflexivity. }
  split; [|split].
  - intros lead Hin. apply list_elem_of_In, in_flat_map in Hin.
    destruct Hin as (form & Hform & Hlead).
    apply list_elem_of_In, form_leads_elem in Hlead.
    destruct Hlead as (page & ls & raw & Hf & Hdata & Hraw & ->).
    exists form, page, ls, raw.
    rewrite list_elem_of_In, tag_lead_form_id, tag_lead_form_name. auto 10.
  - intros form e Hf. unfold form_leads. rewrite Hf. reflexivity.
  - intros form page ls raw Hform Hf Hdata Hraw.
    apply list_elem_of_In, in_flat_map. exists form. split.
    + apply list_elem_of_In, Hform.
    + apply list_elem_of_In, form_leads_elem. exists page, ls, raw. auto.
Qed.

Lemma flat_map_length_le {A B} (f : A -> list B) (k : nat) (l : list A) :
  (forall x, (length (f x) <= k)%nat) ->
  (length (flat_map f l) <= length l * k)%nat.
Proof.
  intros Hk. induction l as [|x l IH]; cbn [flat_map length]; [lia|].
  rewrite length_app. specialize (Hk x). lia.
Qed.

Lemma form_leads_at_most_10 ax tok form :
  honours_limit ax -> (length (form_leads ax tok form) <= 10)%nat.
Proof.
  intros Hh. unfold form_leads, form_fetch, makeGraphApiRequest.
  destruct (get_leads ax _ _) as [page|e] eqn:Hg.
  - destruct (data page) as [ls|] eqn:Hd; [|cbn; lia].
    rewrite length_map.
    apply (Hh _ _ _ _ 10 Hg Hd).
    apply lookup_union_Some_l. vm_compute. reflexivity.
  - destruct (response e); cbn; lia.
Qed.

(** C10. The caller's [limit] is sent with the forms listing only, 25 when
    the caller gives none; every leads fetch is sent the constant limit 10,
    so with an upstream that returns no more items than the limit it is
    sent, at most 50 leads are returned; and the paging of the result is
    that of the forms listing. *)
Theorem leads_limit_applies_to_forms_only ax tok id params :
  forms_params params !! lit "limit"
    = Some (param_or (params !! lit "limit") (PNum 25)) /\
  (params !! lit "limit" = None -> forms_params params !! lit "limit" = Some (PNum 25)) /\
  leads_params !! lit "limit" = Some (PNum 10) /\
  getLeads ax tok id params =
    match makeGraphApiRequest (get_forms ax) tok
            (lit "/" ++ normalizeAccountId id ++ lit "/leadgen_forms")
            (forms_params params) with
    | Rejected e => Rejected e
    | Fulfilled fp =>
        Fulfilled
          {| data :=
               Some (match data fp with
                     | Some forms =>
                         flat_map
                           (fun form =>
                              match makeGraphApiRequest (get_leads ax) tok
                                      (lit "/" ++ Form.id form ++ lit "/leads")
                                      leads_params with
                              | Fulfilled page =>
                                  match data page with
                                  | Some ls => map (tag_lead form) ls
                                  | None => []
                                  end
                              | Rejected _ => []
                              end)
                           (take 5 forms)
                     | None => []
                     end);
             paging := paging fp |}
    end /\
  (honours_limit ax ->
   forall page ls,
     getLeads ax tok id params = Fulfilled page -> data page = Some ls ->
     (length ls <= 50)%nat) /\
  (forall page,
     getLeads ax tok id params = Fulfilled page ->
     exists fp, forms_listing ax tok id params = Fulfilled fp /\ paging page = paging fp).
Proof.
  assert (Hlim : forms_params params !! lit "limit"
                 = Some (param_or (params !! lit "limit") (PNum 25))).
  { unfold forms_params. rewrite lookup_insert_ne by (vm_compute; discriminate).
    apply lookup_insert_eq. }
  split; [exact Hlim|].
  split; [intros Hn; rewrite Hlim, Hn; reflexivity|].
  split; [vm_compute; reflexivity|].
  split; [apply getLeads_closed_form|].
  split.
  - intros Hh page ls. rewrite getLeads_closed_form.
    destruct (forms_listing ax tok id params) as [fp|e]; [|discriminate].
    intros [= <-]. cbn [data]. intros [= <-].
    destruct (data fp) as [forms|]; [|cbn; lia].
    pose proof (flat_map_length_le (form_leads ax tok) 10 (take 5 forms)
                  (fun f => form_leads_at_most_10 ax tok f Hh)) as Hle.
    rewrite length_take in Hle. lia.
  - intros page. rewrite getLeads_closed_form.
    destruct (forms_listing ax tok id params) as [fp|e]; [|discriminate].
    intros [= <-]. exists fp. split; reflexivity.
Qed.

End Leads.

Lemma sample_upstream_honours_limit : Spec.honours_limit LeadsSample.upstream.
Proof.
  intros url P page ls n. unfold LeadsSample.upstream. cbn [get_leads].
  destruct (bool_decide _); [discriminate|].
  intros [= <-]. cbn [data]. intros [= <-] Hn.
  unfold LeadsSample.requested_limit. rewrite Hn, length_take. cbn [length]. lia.
Qed.

(** Seven forms, the third failing: the leads of forms 1, 2, 4 and 5 are
    returned, two each. *)
Lemma leads_first_five_tagged_failures_skipped_witness :
  exists leads,
    MetaApi.getLeads LeadsSample.upstream (lit "EAAB") (lit "42") ∅
      = Fulfilled {| data := Some leads; paging := Some LeadsSample.forms_paging |} /\
    length leads = 8%nat.
Proof.
  destruct (leads_first_five_tagged_failures_skipped LeadsSample.upstream
              (lit "EAAB") (lit "42") ∅
              {| data := Some LeadsSample.seven_forms;
                 paging := Some LeadsSample.forms_paging |}
              LeadsSample.seven_forms
              ltac:(vm_compute; reflexivity) ltac:(reflexivity))
    as (leads & E & Hl & _).
  exists leads. split; [exact E|]. rewrite Hl. vm_compute. reflexivity.
Defined.

Lemma leads_limit_applies_to_forms_only_witness :
  exists page ls,
    MetaApi.getLeads LeadsSample.upstream (lit "EAAB") (lit "42")
      {[ lit "limit" := PStr (lit "100") ]} = Fulfilled page /\
    data page = Some ls /\ (length ls <= 50)%nat.
Proof.
  pose proof (leads_limit_applies_to_forms_only LeadsSample.upstream
                (lit "EAAB") (lit "42") {[ lit "limit" := PStr (lit "100") ]})
    as (_ & _ & _ & Hcf & Hbound & _).
  change (MetaApi.makeGraphApiRequest (get_forms LeadsSample.upstream) _ _ _)
    with (Fulfilled {| data := Some LeadsSample.seven_forms;
                       paging := Some LeadsSample.forms_paging |}) in Hcf.
  cbv beta iota in Hcf.
  eexists. eexists. split; [exact Hcf|]. split; [reflexivity|].
  apply (Hbound sample_upstream_honours_limit _ _ Hcf). reflexivity.
Defined.

(** C10 as stated fails: the bound of 50 is not the code's.  Each fetch
    is sent the limit 10, but what it returns is not cut: with an
    upstream that returns eleven leads for every form, the operation
    returns 55. *)
Lemma leads_can_exceed_50 :
  MetaApi.leads_params !! lit "limit" = Some (PNum 10) /\
  match MetaApi.getLeads LeadsSample.unlimited_upstream (lit "EAAB") (lit "42") ∅ with
  | Fulfilled page => option_map length (data page) = Some 55%nat
  | Rejected _ => False
  end.
Proof. split; vm_compute; reflexivity. Qed.

(* ===================================================================== *)
(** * The OAuth callback *)
(* ===================================================================== *)

Section Callback.

Import Auth Spec.

Lemma truthy_Some (s : jsstring) : s <> [] -> truthy (Some s) = true.
Proof. destruct s; [congruence|reflexivity]. Qed.

(** The callback on a well-formed redirect whose code is exchanged for a
    token, up to the upsert: what it hands to [findOneAndUpdate] is the
    outcome of the upgrade step, and its answer follows the upsert. *)
Lemma callback_reaches_upsert (cfg : Config) (ax : Axios) (clock : Clock) (db : Db)
  (query : Query) (code state uid : jsstring) (short : TokenData)
  (short_token : jsstring) :
  truthy (query !! lit "error") = false ->
  query !! lit "code" = Some code -> code <> [] ->
  query !! lit "state" = Some state -> state <> [] ->
  decodeState state = Some (Some (JStr uid)) ->
  get_token ax tokenUrl (tokenParams cfg (Some code)) = Fulfilled short ->
  access_token short = Some short_token -> short_token <> [] ->
  let up := upgraded cfg ax clock short_token (short_expiry clock short) in
  callback cfg ax clock db query =
    match findOneAndUpdate db
            {| set_userId := uid;
               set_accessToken := fst up;
               set_expiresAt := snd up;
               set_tokenType := or_default (token_type short) (lit "Bearer");
               set_adAccountId := discovered_account ax (fst up) |} with
    | (Rejected error, db') => Done (Meta.error_response 500 (callback_error error)) db'
    | (Fulfilled _, db') =>
        Done (json_response [("success", VBool true);
                             ("message", VStr (lit "Authentication successful"));
                             ("userId", VStr uid);
                             ("expiresAt", VOptDate (snd up))]) db'
    end.
Proof.
  intros Herr Hcode Hc Hstate Hs Hdec Hshort Htok Ht up.
  unfold callback. cbv zeta. rewrite Herr, Hcode, Hstate.
  rewrite (truthy_Some code Hc), (truthy_Some state Hs).
  cbn [negb orb].
  change (default [] (Some state)) with state. rewrite Hdec, Hshort, Htok.
  rewrite (truthy_Some short_token Ht). cbn [negb].
  change (default [] (Some short_token)) with short_token.
  subst up. unfold upgraded, short_expiry, discovered_account.
  destruct (get_token ax tokenUrl (longLivedParams cfg short_token)) as [l|e];
    [destruct (truthy (access_token l))|]; reflexivity.
Qed.

(** With the store up and an expiry that is a valid Date (or none), the
    callback answers success and upserts the outcome of the upgrade
    step. *)
Lemma callback_success_path (cfg : Config) (ax : Axios) (clock : Clock) (db : Db)
  (query : Query) (code state uid : jsstring) (short : TokenData)
  (short_token : jsstring) :
  truthy (query !! lit "error") = false ->
  query !! lit "code" = Some code -> code <> [] ->
  query !! lit "state" = Some state -> state <> [] ->
  decodeState state = Some (Some (JStr uid)) ->
  get_token ax tokenUrl (tokenParams cfg (Some code)) = Fulfilled short ->
  access_token short = Some short_token -> short_token <> [] ->
  down db = None ->
  castable_date (snd (upgraded cfg ax clock short_token (short_expiry clock short)))
    = true ->
  let up := upgraded cfg ax clock short_token (short_expiry clock short) in
  let doc :=
    apply_update (docs db !! uid)
      {| set_userId := uid;
         set_accessToken := fst up;
         set_expiresAt := snd up;
         set_tokenType := or_default (token_type short) (lit "Bearer");
         set_adAccountId := discovered_account ax (fst up) |} in
  callback cfg ax clock db query =
    Done (json_response [("success", VBool true);
                         ("message", VStr (lit "Authentication successful"));
                         ("userId", VStr uid);
                         ("expiresAt", VOptDate (snd up))])
         (with_doc db uid doc).
Proof.
  intros Herr Hcode Hc Hstate Hs Hdec Hshort Htok Ht Hup Hdate up doc.
  rewrite (callback_reaches_upsert cfg ax clock db query code state uid short
             short_token Herr Hcode Hc Hstate Hs Hdec Hshort Htok Ht).
  cbv zeta. unfold findOneAndUpdate. cbn [set_expiresAt set_userId].
  rewrite Hdate, Hup. reflexivity.
Qed.

(** With an expiry that is an Invalid Date, the upsert is refused: the
    callback answers 500 with Mongoose's message and the store is left as
    it was. *)
Lemma callback_cast_failure (cfg : Config) (ax : Axios) (clock : Clock) (db : Db)
  (query : Query) (code state uid : jsstring) (short : TokenData)
  (short_token : jsstring) :
  truthy (query !! lit "error") = false ->
  query !! lit "code" = Some code -> code <> [] ->
  query !! lit "state" = Some state -> state <> [] ->
  decodeState state = Some (Some (JStr uid)) ->
  get_token ax tokenUrl (tokenParams cfg (Some code)) = Fulfilled short ->
  access_token short = Some short_token -> short_token <> [] ->
  castable_date (snd (upgraded cfg ax clock short_token (short_expiry clock short)))
    = false ->
  callback cfg ax clock db query =
    Done (Meta.error_response 500 (callback_error (Error (cast_message db)))) db.
Proof.
  intros Herr Hcode Hc Hstate Hs Hdec Hshort Htok Ht Hdate.
  rewrite (callback_reaches_upsert cfg ax clock db query code state uid short
             short_token Herr Hcode Hc Hstate Hs Hdec Hshort Htok Ht).
  cbv zeta. unfold findOneAndUpdate. cbn [set_expiresAt].
  rewrite Hdate. reflexivity.
Qed.

(** C7. When the long-lived exchange succeeds and its response has no
    [expires_in], the expiry returned to the caller and the expiry stored
    with the credential are both the time of the upgrade plus 5,184,000
    seconds.  That time is a Date: the clock does not read within sixty
    days of the end of the time range. *)
Theorem callback_long_lived_expiry_defaults_to_60_days
  (cfg : Config) (ax : Axios) (clock : Clock) (db : Db) (query : Query)
  (code state uid : jsstring) (short : TokenData) (short_token : jsstring)
  (long : TokenData) (long_token : jsstring) :
  truthy (query !! lit "error") = false ->
  query !! lit "code" = Some code -> code <> [] ->
  query !! lit "state" = Some state -> state <> [] ->
  decodeState state = Some (Some (JStr uid)) ->
  get_token ax tokenUrl (tokenParams cfg (Some code)) = Fulfilled short ->
  access_token short = Some short_token -> short_token <> [] ->
  get_token ax tokenUrl (longLivedParams cfg short_token) = Fulfilled long ->
  access_token long = Some long_token -> long_token <> [] ->
  expires_in long = None ->
  down db = None ->
  valid_date (now_upgrade clock + 5184000 * 1000) = true ->
  exists db' doc,
    callback cfg ax clock db query =
      Done (json_response [("success", VBool true);
                           ("message", VStr (lit "Authentication successful"));
                           ("userId", VStr uid);
                           ("expiresAt", VDate (now_upgrade clock + 5184000 * 1000))])
           db' /\
    docs db' !! uid = Some doc /\
    expiresAt doc = Some (now_upgrade clock + 5184000 * 1000) /\
    accessToken doc = long_token.
Proof.
  intros Herr Hcode Hc Hstate Hs Hdec Hshort Htok Ht Hlong Hltok Hlt Hnone Hup Hdate.
  assert (Hupg : upgraded cfg ax clock short_token (short_expiry clock short)
                 = (long_token, Some (now_upgrade clock + 5184000 * 1000))).
  { unfold upgraded. rewrite Hlong, Hltok, (truthy_Some long_token Hlt), Hnone.
    reflexivity. }
  rewrite (callback_success_path cfg ax clock db query code state uid short
             short_token Herr Hcode Hc Hstate Hs Hdec Hshort Htok Ht Hup)
    by (rewrite Hupg; exact Hdate).
  rewrite Hupg. cbn [fst snd VOptDate]. eexists. eexists. split; [reflexivity|].
  cbn [with_doc docs]. rewrite lookup_insert_eq. repeat split.
Qed.


End Callback.

Lemma callback_long_lived_expiry_defaults_to_60_days_witness :
  exists db' doc,
    Auth.callback CallbackSample.cfg
      (CallbackSample.upstream (Fulfilled CallbackSample.long_response))
      CallbackSample.clock Sample.db CallbackSample.query =
      Auth.Done
        (json_response [("success", VBool true);
                        ("message", VStr (lit "Authentication successful"));
                        ("userId", VStr (lit "abc"));
                        ("expiresAt", VDate (1500 + 5184000 * 1000))])
        db' /\
    docs db' !! lit "abc" = Some doc /\
    expiresAt doc = Some (1500 + 5184000 * 1000) /\
    accessToken doc = lit "long-lived".
Proof.
  apply (callback_long_lived_expiry_defaults_to_60_days
           CallbackSample.cfg
           (CallbackSample.upstream (Fulfilled CallbackSample.long_response))
           CallbackSample.clock Sample.db CallbackSample.query
           (lit "AQDx") (lit "eyJ1c2VySWQiOiJhYmMifQ==") (lit "abc")
           CallbackSample.short_response (lit "short-lived")
           CallbackSample.long_response (lit "long-lived"));
    first [ discriminate | vm_compute; reflexivity ].
Defined.


(* ===================================================================== *)
(** * The OAuth state value *)
(* ===================================================================== *)

Section StateCodec.

Import Codec Spec.

Lemma is_high_range c : is_high c = true <-> 0xD800 <= c <= 0xDBFF.
Proof. unfold is_high. zcases; split; intros; try lia; try discriminate; reflexivity. Qed.
Lemma is_low_range c : is_low c = true <-> 0xDC00 <= c <= 0xDFFF.
Proof. unfold is_low. zcases; split; intros; try lia; try discriminate; reflexivity. Qed.
Lemma scalar_not_surrogate c : scalar16 c -> is_high c = false /\ is_low c = false.
Proof. unfold scalar16, is_high, is_low. intros H. zcases; split; reflexivity. Qed.

Lemma in_range_true b lo hi : lo <= b <= hi -> in_range b lo hi = true.
Proof. unfold in_range. intros. zcases; try reflexivity. Qed.
Lemma in_range_false b lo hi : b < lo \/ hi < b -> in_range b lo hi = false.
Proof. unfold in_range. intros. zcases; try reflexivity. Qed.
Lemma ltb_false a b : b <= a -> (a <? b) = false.
Proof. intros. zcases; try reflexivity. Qed.
Lemma ltb_true a b : a < b -> (a <? b) = true.
Proof. intros. zcases; try reflexivity. Qed.

Lemma second_bounds3 c :
  0x800 <= c < 0x10000 -> scalar16 c ->
  second_lo (0xE0 + c / 4096) <= 0x80 + (c / 64) mod 64 <= second_hi (0xE0 + c / 4096).
Proof. unfold scalar16, second_lo, second_hi. intros. zcases; divmod. Qed.

Lemma second_bounds4 cp :
  0x10000 <= cp < 0x110000 ->
  second_lo (0xF0 + cp / 262144) <= 0x80 + (cp / 4096) mod 64 <= second_hi (0xF0 + cp / 262144).
Proof. unfold second_lo, second_hi. intros. zcases; divmod. Qed.

Lemma utf8_decode_scalar c rest :
  scalar16 c -> utf8_decode (utf8_of_code_point c ++ rest) = c :: utf8_decode rest.
Proof.
  intros Hs. assert (Hc := Hs). unfold scalar16 in Hc. unfold utf8_of_code_point.
  destruct (Z.ltb_spec c 0x80); [|destruct (Z.ltb_spec c 0x800); [|destruct (Z.ltb_spec c 0x10000); [|lia]]];
    cbn [app utf8_decode].
  - rewrite ltb_true by lia. reflexivity.
  - rewrite ltb_false by divmod.
    rewrite (in_range_true _ 0xC2 0xDF) by divmod.
    rewrite (in_range_true _ 0x80 0xBF) by divmod.
    f_equal. divmod.
  - rewrite ltb_false by divmod.
    rewrite (in_range_false _ 0xC2 0xDF) by divmod.
    rewrite (in_range_true _ 0xE0 0xEF) by divmod.
    rewrite in_range_true by (apply second_bounds3; [lia|exact Hs]).
    rewrite (in_range_true _ 0x80 0xBF) by divmod.
    f_equal. divmod.
Qed.

Lemma utf8_decode_pair h l rest :
  is_high h = true -> is_low l = true ->
  utf8_decode (utf8_of_code_point (0x10000 + (h - 0xD800) * 1024 + (l - 0xDC00)) ++ rest)
  = h :: l :: utf8_decode rest.
Proof.
  intros Hh Hl. apply is_high_range in Hh. apply is_low_range in Hl.
  set (cp := 0x10000 + (h - 0xD800) * 1024 + (l - 0xDC00)).
  assert (Hcp : 0x10000 <= cp < 0x110000) by (subst cp; lia).
  unfold utf8_of_code_point.
  rewrite (ltb_false cp 0x80), (ltb_false cp 0x800), (ltb_false cp 0x10000) by lia.
  cbn [app utf8_decode].
  rewrite ltb_false by divmod.
  rewrite (in_range_false _ 0xC2 0xDF) by divmod.
  rewrite (in_range_false _ 0xE0 0xEF) by divmod.
  rewrite (in_range_true _ 0xF0 0xF4) by divmod.
  rewrite in_range_true by (apply second_bounds4; exact Hcp).
  rewrite !(in_range_true _ 0x80 0xBF) by divmod.
  unfold surrogates. cbn [app]. f_equal; [|f_equal]; subst cp; divmod.
Qed.

Lemma utf8_roundtrip s : wf16 s -> utf8_decode (utf8_encode s) = s.
Proof.
  induction 1 as [|c r Hc Hr IH|h l r Hh Hl Hr IH].
  - reflexivity.
  - destruct (scalar_not_surrogate c Hc) as [E1 E2].
    cbn [utf8_encode]. rewrite E1, E2, utf8_decode_scalar, IH by exact Hc. reflexivity.
  - cbn [utf8_encode]. rewrite Hh, Hl, utf8_decode_pair, IH by assumption. reflexivity.
Qed.

Lemma utf8_bytes_scalar c : scalar16 c -> Forall byte (utf8_of_code_point c).
Proof.
  unfold scalar16, utf8_of_code_point, byte. intros Hc.
  zcases; repeat constructor; divmod.
Qed.

Lemma utf8_bytes_pair h l :
  is_high h = true -> is_low l = true ->
  Forall byte (utf8_of_code_point (0x10000 + (h - 0xD800) * 1024 + (l - 0xDC00))).
Proof.
  intros Hh Hl. apply is_high_range in Hh. apply is_low_range in Hl.
  unfold utf8_of_code_point, byte. zcases; repeat constructor; divmod.
Qed.

Lemma utf8_encode_bytes s : wf16 s -> Forall byte (utf8_encode s).
Proof.
  induction 1 as [|c r Hc Hr IH|h l r Hh Hl Hr IH].
  - constructor.
  - destruct (scalar_not_surrogate c Hc) as [E1 E2].
    cbn [utf8_encode]. rewrite E1, E2. apply Forall_app. split; [apply utf8_bytes_scalar, Hc | exact IH].
  - cbn [utf8_encode]. rewrite Hh, Hl. apply Forall_app. split; [apply utf8_bytes_pair; assumption | exact IH].
Qed.

Lemma unbase64_char n : 0 <= n < 64 -> unbase64 (base64_char n) = Some n /\ base64_char n <> 61.
Proof.
  intros Hn. unfold unbase64, base64_char, in_range. zcases; split; try lia; f_equal; lia.
Qed.

Lemma sextets_char n r : 0 <= n < 64 -> sextets (base64_char n :: r) = n :: sextets r.
Proof.
  intros Hn. destruct (unbase64_char n Hn) as [Hu Hne].
  assert (Hb : low_byte (base64_char n) = base64_char n).
  { unfold low_byte, base64_char. zcases; apply Z.mod_small; lia. }
  cbn [sextets]. cbv zeta. rewrite Hb, Hu.
  destruct (Z.eqb_spec (base64_char n) 61); [contradiction|reflexivity].
Qed.

Lemma base64_roundtrip_fuel (n : nat) : forall bs,
  (length bs <= n)%nat -> Forall byte bs -> base64_decode (base64_encode bs) = bs.
Proof.
  unfold base64_decode, byte.
  induction n as [|n IH]; intros bs Hlen Hb.
  { destruct bs; [reflexivity | cbn in Hlen; lia]. }
  destruct bs as [|a [|b [|c r]]]; [reflexivity | | |].
  - inversion_clear Hb as [|? ? Ha _].
    cbn [base64_encode]. rewrite !sextets_char by divmod.
    cbn [sextets Z.eqb Pos.eqb bytes_of_sextets]. f_equal. divmod.
  - inversion_clear Hb as [|? ? Ha Hb']. inversion_clear Hb' as [|? ? Hb _].
    cbn [base64_encode]. rewrite !sextets_char by divmod.
    cbn [sextets Z.eqb Pos.eqb bytes_of_sextets]. repeat f_equal; divmod.
  - inversion_clear Hb as [|? ? Ha Hb']. inversion_clear Hb' as [|? ? Hb Hb''].
    inversion_clear Hb'' as [|? ? Hc Hr].
    cbn [base64_encode app]. rewrite !sextets_char by divmod.
    cbn [bytes_of_sextets app]. rewrite IH by (cbn in Hlen; auto; lia).
    repeat f_equal; divmod.
Qed.

Lemma base64_roundtrip bs : Forall byte bs -> base64_decode (base64_encode bs) = bs.
Proof. apply (base64_roundtrip_fuel (length bs)). lia. Qed.

Lemma pair_ind (P : list Z -> Prop) :
  P [] -> (forall a, P [a]) ->
  (forall a b l, P l -> P (b :: l) -> P (a :: b :: l)) ->
  forall l, P l.
Proof.
  intros H0 H1 H2 l.
  assert (H : P l /\ forall a, P (a :: l)); [|exact (proj1 H)].
  induction l as [|b l [IH1 IH2]]; [auto|].
  split; [apply IH2|]. intros a. apply H2; [exact IH1 | apply IH2].
Qed.

Lemma hex_value_digit n : 0 <= n < 16 -> hex_value (hex_digit n) = Some n.
Proof. unfold hex_value, hex_digit. intros. zcases; f_equal; lia. Qed.

Lemma hex4_escape c :
  code_unit c ->
  hex4 (hex_digit (c / 4096)) (hex_digit ((c / 256) mod 16))
       (hex_digit ((c / 16) mod 16)) (hex_digit (c mod 16)) = Some c.
Proof.
  unfold code_unit, hex4. intros Hc.
  rewrite !hex_value_digit by divmod. f_equal. divmod.
Qed.

Lemma parse_chars_escape c tail :
  code_unit c ->
  parse_chars (UnicodeEscape c ++ tail) =
    match parse_chars tail with
    | Some (str, rest) => Some (c :: str, rest)
    | None => None
    end.
Proof.
  intros Hc. unfold UnicodeEscape. cbn [app parse_chars].
  change (92 =? 34) with false. change (92 =? 92) with true. change (117 =? 117) with true.
  cbn iota. rewrite hex4_escape by exact Hc. reflexivity.
Qed.

Lemma parse_chars_literal c tail :
  32 <= c -> c <> 34 -> c <> 92 ->
  parse_chars (c :: tail) =
    match parse_chars tail with
    | Some (str, rest) => Some (c :: str, rest)
    | None => None
    end.
Proof.
  intros. cbn [parse_chars]. zcases. reflexivity.
Qed.

Lemma parse_chars_quote_unit c tail :
  code_unit c ->
  parse_chars (quote_unit c ++ tail) =
    match parse_chars tail with
    | Some (str, rest) => Some (c :: str, rest)
    | None => None
    end.
Proof.
  intros Hc. unfold quote_unit.
  destruct (Z.eqb_spec c 8) as [->|]; [reflexivity|].
  destruct (Z.eqb_spec c 9) as [->|]; [reflexivity|].
  destruct (Z.eqb_spec c 10) as [->|]; [reflexivity|].
  destruct (Z.eqb_spec c 12) as [->|]; [reflexivity|].
  destruct (Z.eqb_spec c 13) as [->|]; [reflexivity|].
  destruct (Z.eqb_spec c 34) as [->|]; [reflexivity|].
  destruct (Z.eqb_spec c 92) as [->|]; [reflexivity|].
  destruct ((c <? 32) || is_high c || is_low c) eqn:E.
  - apply parse_chars_escape, Hc.
  - apply orb_false_elim in E as [E _]. apply orb_false_elim in E as [E _].
    apply parse_chars_literal; try assumption. revert E. zcases; try discriminate.
Qed.

Lemma parse_chars_quote_units (s : list Z) : forall rest,
  Forall code_unit s ->
  parse_chars (quote_units s ++ 34 :: rest) = Some (s, rest).
Proof.
  induction s as [|a|a b l IHl IHbl] using pair_ind; intros rest Hs.
  - reflexivity.
  - inversion_clear Hs as [|? ? Ha _]. cbn [quote_units].
    destruct (is_high a).
    + rewrite parse_chars_escape by exact Ha. reflexivity.
    + rewrite <- app_assoc, parse_chars_quote_unit by exact Ha. reflexivity.
  - inversion Hs as [|? ? Ha Hbl]; subst. inversion Hbl as [|? ? Hb Hl]; subst.
    cbn [quote_units]. destruct (is_high a) eqn:Eh.
    + destruct (is_low b) eqn:El.
      * cbn [app]. apply is_high_range in Eh. apply is_low_range in El.
        rewrite (parse_chars_literal a), (parse_chars_literal b) by lia.
        rewrite IHl by exact Hl. reflexivity.
      * rewrite <- app_assoc, parse_chars_escape by exact Ha.
        change (match b :: l with [] => _ | _ => _ end) with (quote_units (b :: l)).
        rewrite IHbl by exact Hbl. reflexivity.
    + rewrite <- app_assoc, parse_chars_quote_unit by exact Ha.
      change (match b :: l with [] => _ | _ => _ end) with (quote_units (b :: l)).
      rewrite IHbl by exact Hbl. reflexivity.
Qed.

Lemma wf16_app a b : wf16 a -> wf16 b -> wf16 (a ++ b).
Proof.
  induction 1; intros Hb; cbn [app]; [exact Hb | |].
  - apply wf16_scalar; auto.
  - apply wf16_pair; auto.
Qed.

Lemma wf16_ascii s : Forall (fun c => 0 <= c < 128) s -> wf16 s.
Proof.
  induction 1 as [|c r Hc _ IH]; [constructor|].
  apply wf16_scalar; [left; lia | exact IH].
Qed.

Lemma hex_digit_ascii n : 0 <= n < 16 -> 0 <= hex_digit n < 128.
Proof. unfold hex_digit. intros. zcases. Qed.

Lemma wf16_escape c : code_unit c -> wf16 (UnicodeEscape c).
Proof.
  unfold code_unit. intros Hc. apply wf16_ascii. unfold UnicodeEscape.
  repeat constructor; try lia; apply hex_digit_ascii; divmod.
Qed.

Lemma wf16_quote_unit c : code_unit c -> wf16 (quote_unit c).
Proof.
  intros Hc. unfold quote_unit.
  repeat (match goal with |- context [?a =? ?b] => destruct (Z.eqb_spec a b) end;
          [apply wf16_ascii; repeat constructor; lia|]).
  destruct ((c <? 32) || is_high c || is_low c) eqn:E; [apply wf16_escape, Hc|].
  apply orb_false_elim in E as [E El]. apply orb_false_elim in E as [E Eh].
  apply wf16_scalar; [|constructor].
  unfold code_unit in Hc. unfold scalar16. revert Eh El. unfold is_high, is_low.
  zcases; try discriminate.
Qed.

Lemma wf16_quote_units (s : list Z) : Forall code_unit s -> wf16 (quote_units s).
Proof.
  induction s as [|a|a b l IHl IHbl] using pair_ind; intros Hs.
  - constructor.
  - inversion_clear Hs as [|? ? Ha _]. cbn [quote_units].
    destruct (is_high a); [apply wf16_escape, Ha|].
    rewrite app_nil_r. apply wf16_quote_unit, Ha.
  - inversion Hs as [|? ? Ha Hbl]; subst. inversion Hbl as [|? ? Hb Hl]; subst.
    cbn [quote_units]. destruct (is_high a) eqn:Eh.
    + destruct (is_low b) eqn:El.
      * apply wf16_pair; auto.
      * apply wf16_app; [apply wf16_escape, Ha|].
        change (match b :: l with [] => _ | _ => _ end) with (quote_units (b :: l)).
        apply IHbl, Hbl.
    + apply wf16_app; [apply wf16_quote_unit, Ha|].
      change (match b :: l with [] => _ | _ => _ end) with (quote_units (b :: l)).
      apply IHbl, Hbl.
Qed.

Lemma envelope_shape userId :
  JSON_stringify_userId userId =
    [123; 34; 117; 115; 101; 114; 73; 100; 34; 58; 34] ++ quote_units userId ++ [34; 125].
Proof.
  unfold JSON_stringify_userId, QuoteJSONString.
  change (quote_units (lit "userId")) with [117; 115; 101; 114; 73; 100].
  cbn [app]. rewrite <- !app_assoc. reflexivity.
Qed.

Lemma wf16_envelope userId :
  Forall code_unit userId -> wf16 (JSON_stringify_userId userId).
Proof.
  intros Hu. rewrite envelope_shape.
  apply wf16_app; [apply wf16_ascii; repeat constructor; lia|].
  apply wf16_app; [apply wf16_quote_units, Hu|].
  apply wf16_ascii. repeat constructor; lia.
Qed.

Lemma parse_envelope userId fuel :
  Forall code_unit userId ->
  parse_value (S (S (S fuel))) (JSON_stringify_userId userId)
    = Some (JObj {[ lit "userId" := JStr userId ]}, []).
Proof.
  intros Hu. rewrite envelope_shape.
  cbn -[quote_units lit].
  rewrite (parse_chars_quote_units userId [125] Hu).
  reflexivity.
Qed.

Lemma JSON_parse_envelope userId :
  Forall code_unit userId ->
  JSON_parse (JSON_stringify_userId userId) = Some (JObj {[ lit "userId" := JStr userId ]}).
Proof.
  intros Hu. unfold JSON_parse.
  assert (Hlen : exists fuel, length (JSON_stringify_userId userId) = S (S fuel)).
  { rewrite envelope_shape. cbn [app length]. eauto. }
  destruct Hlen as [fuel ->]. rewrite parse_envelope by exact Hu. reflexivity.
Qed.

(** C5. Decoding, as the callback does, the state that /auth/start builds
    for a [userId] gives back that [userId], code unit for code unit. *)
Theorem state_roundtrip userId :
  Forall code_unit userId ->
  Auth.decodeState (Auth.encodeState userId) = Some (Some (JStr userId)).
Proof.
  intros Hu. unfold Auth.decodeState, Auth.encodeState.
  rewrite base64_roundtrip by (apply utf8_encode_bytes, wf16_envelope, Hu).
  rewrite utf8_roundtrip by (apply wf16_envelope, Hu).
  rewrite JSON_parse_envelope by exact Hu.
  rewrite lookup_singleton_eq. reflexivity.
Qed.

End StateCodec.

Lemma state_roundtrip_witness :
  Auth.decodeState (Auth.encodeState (lit "abc")) = Some (Some (JStr (lit "abc"))).
Proof.
  apply (state_roundtrip (lit "abc")).
  change (Forall code_unit [97; 98; 99]).
  repeat (constructor; [unfold code_unit; lia|]). constructor.
Defined.

(* ===================================================================== *)
(** * The gate: expiry, store failures, missing userId *)
(* ===================================================================== *)

Section GateOutcomes.

Import Meta Spec.

(** X1. A credential needs a refresh exactly when it has an expiry and the
    current time is no more than five minutes (300000 ms) before it; an
    expired credential always needs one, and in the last five minutes
    before its expiry a credential needs one without being expired. *)
Theorem needsRefresh_window (this : UserToken) (now : Z) :
  (needsRefresh now this = true <->
   exists e, expiresAt this = Some e /\ e - 300000 <= now) /\
  (isExpired now this = true -> needsRefresh now this = true) /\
  (forall e, expiresAt this = Some e -> e - 300000 <= now < e ->
     needsRefresh now this = true /\ isExpired now this = false).
Proof.
  unfold needsRefresh, isExpired. destruct (expiresAt this) as [e|].
  - cbv zeta. change (5 * 60 * 1000) with 300000. repeat split.
    + intros H. exists e. split; [reflexivity|]. apply Z.geb_le in H. exact H.
    + intros (e' & [= <-] & H). apply Z.geb_le. exact H.
    + intros H. apply Z.geb_le in H. apply Z.geb_le. lia.
    + injection H as <-. apply Z.geb_le. lia.
    + injection H as <-. destruct (now >=? e) eqn:E; [|reflexivity].
      apply Z.geb_le in E. lia.
  - repeat split; try discriminate.
    intros (e & H & _). discriminate.
Qed.

Lemma isExpired_true_iff now tok :
  isExpired now tok = true <-> exists e, expiresAt tok = Some e /\ e <= now.
Proof.
  unfold isExpired. destruct (expiresAt tok) as [e|]; split.
  - intros H. exists e. split; [reflexivity|]. apply Z.geb_le, H.
  - intros (e' & [= <-] & H). apply Z.geb_le, H.
  - discriminate.
  - intros (e & H & _). discriminate.
Qed.

Lemma gate_expired now db query uid tok :
  supplies_userId query uid ->
  findOne db uid = Fulfilled (Some tok) ->
  isExpired now tok = true ->
  validateUserAndToken now db query =
    Respond {| status := 401;
               body := [("success", VBool false);
                        ("error", VStr (lit "Access token expired. Please re-authenticate."));
                        ("expired", VBool true)] |}.
Proof.
  intros [Hq Hne] Hf He. unfold validateUserAndToken. rewrite Hq.
  destruct uid as [|c uid']; [congruence|]. cbn [truthy_str negb].
  rewrite Hf, He. reflexivity.
Qed.

Lemma gate_store_down now db query uid e :
  supplies_userId query uid ->
  down db = Some e ->
  validateUserAndToken now db query =
    Respond (error_response 500 (lit "Failed to validate authentication")).
Proof.
  intros [Hq Hne] Hd. unfold validateUserAndToken, findOne. rewrite Hq, Hd.
  destruct uid as [|c uid']; [congruence|]. reflexivity.
Qed.

(** X2. A request of a user whose stored credential has expired is
    answered 401 with [expired: true] by each of the five data routes,
    whatever the upstream would have said. *)
Theorem expired_credential_rejected_on_every_route (now : Z) (db : Db) (ax : Axios)
  (query : Query) (uid : jsstring) (tok : UserToken) (e : Z) :
  supplies_userId query uid ->
  findOne db uid = Fulfilled (Some tok) ->
  expiresAt tok = Some e -> e <= now ->
  let rejected :=
    {| status := 401;
       body := [("success", VBool false);
                ("error", VStr (lit "Access token expired. Please re-authenticate."));
                ("expired", VBool true)] |} in
  campaigns now db ax query = rejected /\
  spend now db ax query = rejected /\
  leads now db ax query = rejected /\
  adsets now db ax query = rejected /\
  accounts now db ax query = rejected.
Proof.
  intros Hu Hf He Hle rejected.
  assert (Hx : isExpired now tok = true) by (apply isExpired_true_iff; eauto).
  unfold campaigns, spend, leads, adsets, accounts.
  rewrite (gate_expired now db query uid tok Hu Hf Hx). repeat split.
Qed.

(** X3. The gate lets a request through exactly when it supplies a
    non-empty userId, the store holds a credential for it, and that
    credential is not expired. *)
Theorem gate_passes_exactly_for_live_credentials (now : Z) (db : Db) (query : Query) :
  (exists req, validateUserAndToken now db query = Next req) <->
  (exists uid tok,
     supplies_userId query uid /\
     findOne db uid = Fulfilled (Some tok) /\
     isExpired now tok = false).
Proof.
  split.
  - intros (req & H). destruct (gate_next _ _ _ _ H) as (uid & Hu & Hf & He & _).
    exists uid, (req_userToken req). auto.
  - intros (uid & tok & Hu & Hf & He). eexists.
    apply (gate_passes now db query uid tok Hu Hf He).
Qed.

(** X4. When the store lookup fails, each data route answers 500
    'Failed to validate authentication' and /auth/status answers 500
    'Failed to check authentication status': the store's own error text
    is not sent. *)
Theorem store_failure_answers_generic_500 (now : Z) (db : Db) (ax : Axios)
  (query : Query) (uid : jsstring) (e : JsError) :
  supplies_userId query uid ->
  down db = Some e ->
  let failed := error_response 500 (lit "Failed to validate authentication") in
  campaigns now db ax query = failed /\
  spend now db ax query = failed /\
  leads now db ax query = failed /\
  adsets now db ax query = failed /\
  accounts now db ax query = failed /\
  Auth.status now db query
    = error_response 500 (lit "Failed to check authentication status").
Proof.
  intros Hu Hd failed.
  unfold campaigns, spend, leads, adsets, accounts.
  rewrite (gate_store_down now db query uid e Hu Hd). repeat split.
  destruct Hu as [Hq Hne]. unfold Auth.status, findOne. rewrite Hq, Hd.
  destruct uid; [congruence|reflexivity].
Qed.

(** X5. A request without a userId (absent or empty) is answered 400
    'userId is required' by the five data routes, by /auth/status and by
    /auth/start, before the store or the configuration is looked at. *)
Theorem missing_userId_answers_400_everywhere (now : Z) (db : Db) (ax : Axios)
  (cfg : Auth.Config) (query : Query) :
  truthy (query !! lit "userId") = false ->
  let required := error_response 400 (lit "userId is required") in
  campaigns now db ax query = required /\
  spend now db ax query = required /\
  leads now db ax query = required /\
  adsets now db ax query = required /\
  accounts now db ax query = required /\
  Auth.status now db query = required /\
  Auth.start cfg query = required.
Proof.
  intros Hq required.
  unfold campaigns, spend, leads, adsets, accounts.
  rewrite (gate_missing_userId now db query Hq).
  unfold Auth.status, Auth.start. rewrite Hq. repeat split.
Qed.

End GateOutcomes.

Lemma expired_credential_rejected_on_every_route_witness :
  Http.status (Meta.campaigns 2000 Sample.db Sample.no_upstream RouteSample.alice_query) = 401 /\
  Http.status (Meta.accounts 2000 Sample.db Sample.no_upstream RouteSample.alice_query) = 401.
Proof.
  assert (Hu : Spec.supplies_userId RouteSample.alice_query (lit "alice")).
  { split; [vm_compute; reflexivity | discriminate]. }
  pose proof (expired_credential_rejected_on_every_route 2000 Sample.db
                Sample.no_upstream RouteSample.alice_query (lit "alice") Sample.alice
                2000 Hu ltac:(vm_compute; reflexivity) ltac:(reflexivity) ltac:(lia))
    as (E1 & _ & _ & _ & E5).
  rewrite E1, E5. split; reflexivity.
Defined.

Lemma store_failure_answers_generic_500_witness :
  Http.status (Meta.leads 1000 RouteSample.unreachable Sample.no_upstream
                 RouteSample.alice_query) = 500 /\
  Http.status (Auth.status 1000 RouteSample.unreachable RouteSample.alice_query) = 500.
Proof.
  assert (Hu : Spec.supplies_userId RouteSample.alice_query (lit "alice")).
  { split; [vm_compute; reflexivity | discriminate]. }
  pose proof (store_failure_answers_generic_500 1000 RouteSample.unreachable
                Sample.no_upstream RouteSample.alice_query (lit "alice") _ Hu
                ltac:(reflexivity))
    as (_ & _ & E3 & _ & _ & E6).
  rewrite E3, E6. split; reflexivity.
Defined.

Lemma missing_userId_answers_400_everywhere_witness :
  Http.status (Meta.campaigns 1000 RouteSample.unreachable Sample.no_upstream
                 RouteSample.empty_userId_query) = 400 /\
  Http.status (Auth.start CallbackSample.cfg RouteSample.no_query) = 400.
Proof.
  pose proof (missing_userId_answers_400_everywhere 1000 RouteSample.unreachable
                Sample.no_upstream CallbackSample.cfg RouteSample.empty_userId_query
                ltac:(vm_compute; reflexivity)) as (E1 & _).
  pose proof (missing_userId_answers_400_everywhere 1000 RouteSample.unreachable
                Sample.no_upstream CallbackSample.cfg RouteSample.no_query
                ltac:(vm_compute; reflexivity)) as (_ & _ & _ & _ & _ & _ & E7).
  rewrite E1, E7. split; reflexivity.
Defined.

(* ===================================================================== *)
(** * The routes and the upstream client *)
(* ===================================================================== *)

Section GraphClient.

Import MetaApi Meta Spec RouteSpec.

Lemma makeGraphApiRequest_graph_error {A} (get : jsstring -> Params -> outcome A)
  (tok endpoint : jsstring) (params : Params) :
  makeGraphApiRequest get tok endpoint params
  = graph_error (get (graph_url endpoint)
                     (params ∪ {[ lit "access_token" := PStr tok ]})).
Proof. reflexivity. Qed.

Lemma authorized_gate (now : Z) (db : Db) (query : Query) (tok : UserToken)
  (acct : jsstring) :
  authorized now db query tok acct ->
  validateUserAndToken now db query =
    Next {| req_userToken := tok;
            req_accessToken := accessToken tok;
            req_adAccountId := Some acct |}.
Proof.
  intros (uid & Hu & Hf & He & Hacc & _).
  rewrite (gate_passes now db query uid tok Hu Hf He), Hacc. reflexivity.
Qed.

Lemma unresolved_gate (now : Z) (db : Db) (query : Query) (tok : UserToken) :
  authorized_without_account now db query tok ->
  exists req,
    validateUserAndToken now db query = Next req /\
    req_accessToken req = accessToken tok /\
    truthy (req_adAccountId req) = false.
Proof.
  intros (uid & Hu & Hf & He & Hacc). eexists.
  split; [apply (gate_passes now db query uid tok Hu Hf He)|]. auto.
Qed.

Lemma lookup_two_other (k1 k2 k : jsstring) (v1 v2 : param) :
  k1 <> k -> k2 <> k -> ({[ k1 := v1; k2 := v2 ]} : Params) !! k = None.
Proof.
  intros H1 H2. rewrite lookup_insert_ne by exact H1. apply lookup_singleton_ne, H2.
Qed.

(** X6. [getCampaigns] sends its request to the campaigns path of the
    normalized account; every parameter of the caller is sent as given,
    and the defaults (limit 25, the field list, the access token) are
    used only for the keys the caller did not give. *)
Theorem getCampaigns_caller_parameters_win (ax : Axios) (tok id : jsstring)
  (params : Params) :
  exists P : Params,
    getCampaigns ax tok id params
      = graph_error (get_items ax
           (graph_url (lit "/" ++ normalizeAccountId id ++ lit "/campaigns")) P) /\
    (forall k v, params !! k = Some v -> P !! k = Some v) /\
    (params !! lit "access_token" = None -> P !! lit "access_token" = Some (PStr tok)) /\
    (params !! lit "limit" = None -> P !! lit "limit" = Some (PNum 25)) /\
    (params !! lit "fields" = None ->
     P !! lit "fields" = Some (PStr (lit "id,name,status,objective,daily_budget,lifetime_budget,created_time,updated_time"))).
Proof.
  eexists. split; [unfold getCampaigns; rewrite makeGraphApiRequest_graph_error; reflexivity|].
  split; [|split; [|split]].
  - intros k v Hk. apply lookup_union_Some_l, lookup_union_Some_l, Hk.
  - intros Hn. rewrite lookup_union_r.
    + apply lookup_singleton_eq.
    + rewrite lookup_union_r by exact Hn. apply lookup_two_other; keys_differ.
  - intros Hn. rewrite lookup_union_l by (apply lookup_singleton_ne; vm_compute; discriminate).
    rewrite lookup_union_r by exact Hn.
    rewrite lookup_insert_ne by keys_differ.
    rewrite lookup_singleton_eq, Hn. reflexivity.
  - intros Hn. rewrite lookup_union_l by (apply lookup_singleton_ne; vm_compute; discriminate).
    rewrite lookup_union_r by exact Hn.
    apply lookup_insert_eq.
Qed.

(** X7. The campaigns route, for a request that passed the gate with a
    resolved ad account, calls the upstream with the stored access token,
    the query's limit (25 when absent) and the query's fields; as the
    route always passes a [fields] key, an absent [fields] reaches the
    upstream as undefined and [getCampaigns]'s default field list is
    overridden. *)
Theorem campaigns_route_request (now : Z) (db : Db) (ax : Axios) (query : Query)
  (tok : UserToken) (acct : jsstring) :
  authorized now db query tok acct ->
  exists P : Params,
    campaigns now db ax query =
      match graph_error (get_items ax
              (graph_url (lit "/" ++ normalizeAccountId acct ++ lit "/campaigns")) P) with
      | Fulfilled page => data_response page
      | Rejected error => route_failure error (lit "Failed to fetch campaigns")
      end /\
    P !! lit "access_token" = Some (PStr (accessToken tok)) /\
    P !! lit "limit" = Some (limit_or_25 (query !! lit "limit")) /\
    P !! lit "fields" = Some (param_of (query !! lit "fields")).
Proof.
  intros Ha. assert (Hacct : acct <> []) by (destruct Ha as (? & _ & _ & _ & _ & H); exact H).
  eexists. split.
  { unfold campaigns. rewrite (authorized_gate now db query tok acct Ha).
    cbn [req_adAccountId req_accessToken].
    destruct acct as [|c acct']; [congruence|].
    cbn [truthy truthy_str negb].
    change (default [] (Some (c :: acct'))) with (c :: acct').
    unfold getCampaigns. rewrite makeGraphApiRequest_graph_error. reflexivity. }
  split; [|split].
  - rewrite lookup_union_r; [apply lookup_singleton_eq|].
    rewrite lookup_union_r; apply lookup_two_other; keys_differ.
  - apply lookup_union_Some_l, lookup_union_Some_l. apply lookup_insert_eq.
  - apply lookup_union_Some_l, lookup_union_Some_l.
    rewrite lookup_insert_ne by keys_differ. apply lookup_singleton_eq.
Qed.

Lemma graph_error_http {A} (e : JsError) (m : jsstring) :
  response e = Some (Some m) -> m <> [] ->
  graph_error (Rejected e : outcome A) = Rejected (Error (lit "Meta API Error: " ++ m)).
Proof.
  intros Hr Hm. unfold graph_error. rewrite Hr.
  destruct m; [congruence|reflexivity].
Qed.

Lemma graph_error_network {A} (e : JsError) :
  response e = None -> graph_error (Rejected e : outcome A) = Rejected e.
Proof. intros Hr. unfold graph_error. rewrite Hr. reflexivity. Qed.

(** X8. When the upstream rejects every call with an HTTP error carrying
    the message [m], the campaigns, ad-sets, leads and accounts routes
    answer 500 'Meta API Error: m'; when it rejects with a network error
    that has no message, each route answers 500 with its own fallback
    text. *)
Theorem upstream_error_reaches_the_caller (now : Z) (db : Db) (ax : Axios)
  (query : Query) (tok : UserToken) (acct : jsstring) (e : JsError) :
  authorized now db query tok acct ->
  (forall url P, get_items ax url P = Rejected e) ->
  (forall url P, get_forms ax url P = Rejected e) ->
  (forall m, response e = Some (Some m) -> m <> [] ->
     let failed := error_response 500 (lit "Meta API Error: " ++ m) in
     campaigns now db ax query = failed /\
     adsets now db ax query = failed /\
     leads now db ax query = failed /\
     accounts now db ax query = failed) /\
  (response e = None -> message e = [] ->
     campaigns now db ax query = error_response 500 (lit "Failed to fetch campaigns") /\
     adsets now db ax query = error_response 500 (lit "Failed to fetch ad sets") /\
     leads now db ax query = error_response 500 (lit "Failed to fetch leads") /\
     accounts now db ax query = error_response 500 (lit "Failed to fetch ad accounts")).
Proof.
  intros Ha Hitems Hforms.
  assert (Hacct : acct <> []) by (destruct Ha as (? & _ & _ & _ & _ & H); exact H).
  assert (Hg := authorized_gate now db query tok acct Ha).
  destruct acct as [|c acct']; [congruence|].
  split.
  - intros m Hr Hm failed.
    unfold campaigns, adsets, leads, accounts. rewrite Hg.
    cbn [req_adAccountId req_accessToken truthy truthy_str negb].
    unfold getCampaigns, getAdSets, getLeads, getAdAccounts.
    rewrite !makeGraphApiRequest_graph_error, !Hitems, Hforms.
    rewrite !(graph_error_http e m Hr Hm).
    cbn [message Error or_default app truthy_str]. repeat split.
  - intros Hr Hm.
    unfold campaigns, adsets, leads, accounts. rewrite Hg.
    cbn [req_adAccountId req_accessToken truthy truthy_str negb].
    unfold getCampaigns, getAdSets, getLeads, getAdAccounts.
    rewrite !makeGraphApiRequest_graph_error, !Hitems, Hforms.
    rewrite !(graph_error_network e Hr), Hm. repeat split.
Qed.

(** X9. With a campaign id, [getAdSets] addresses the campaign's ad sets
    and the ad-account id plays no part in the request. *)
Theorem adsets_of_a_campaign_ignore_the_account (ax : Axios) (tok id cid : jsstring)
  (params : Params) :
  cid <> [] ->
  (exists P : Params,
     getAdSets ax tok id (Some cid) params
       = graph_error (get_items ax (graph_url (lit "/" ++ cid ++ lit "/adsets")) P)) /\
  (forall id', getAdSets ax tok id' (Some cid) params = getAdSets ax tok id (Some cid) params).
Proof.
  intros Hc. destruct cid as [|c cid']; [congruence|]. split.
  - eexists. unfold getAdSets. cbn [truthy_str].
    rewrite makeGraphApiRequest_graph_error. reflexivity.
  - intros id'. reflexivity.
Qed.

(** X10. When neither the stored credential nor the query resolves an ad
    account, /spend, /leads and /adsets answer 400 'adAccountId is
    required' without calling the upstream, while /accounts needs no
    account and goes on to the upstream. *)
Theorem missing_account_stops_before_upstream (now : Z) (db : Db) (ax : Axios)
  (query : Query) (tok : UserToken) :
  authorized_without_account now db query tok ->
  spend now db ax query = error_response 400 (lit "adAccountId is required") /\
  leads now db ax query = error_response 400 (lit "adAccountId is required") /\
  adsets now db ax query = error_response 400 (lit "adAccountId is required") /\
  accounts now db ax query =
    match getAdAccounts ax (accessToken tok) with
    | Fulfilled page => data_response page
    | Rejected error => route_failure error (lit "Failed to fetch ad accounts")
    end.
Proof.
  intros Hu. destruct (unresolved_gate now db query tok Hu) as (req & Hg & Htok & Hacc).
  unfold spend, leads, adsets, accounts. rewrite Hg, Hacc, Htok. repeat split.
Qed.

(** X11. The leads route answers 200 with the tagged leads of the first
    five forms and the listing's paging when the forms listing is
    fulfilled, with an empty list when the listing has no data, and 500
    with the error's message when the listing is rejected. *)
Theorem leads_route_outcomes (now : Z) (db : Db) (ax : Axios) (query : Query)
  (tok : UserToken) (acct : jsstring) :
  authorized now db query tok acct ->
  let listing :=
    forms_listing ax (accessToken tok) acct
      {[ lit "limit" := limit_or_25 (query !! lit "limit") ]} in
  (forall fp forms,
     listing = Fulfilled fp -> data fp = Some forms ->
     leads now db ax query =
       json_response
         [("success", VBool true);
          ("data", VList (flat_map (form_leads ax (accessToken tok)) (take 5 forms)));
          ("paging", VOptJson (paging fp))]) /\
  (forall fp,
     listing = Fulfilled fp -> data fp = None ->
     leads now db ax query =
       json_response [("success", VBool true); ("data", VList []);
                      ("paging", VOptJson (paging fp))]) /\
  (forall e,
     listing = Rejected e ->
     leads now db ax query = route_failure e (lit "Failed to fetch leads")).
Proof.
  intros Ha listing.
  assert (Hacct : acct <> []) by (destruct Ha as (? & _ & _ & _ & _ & H); exact H).
  assert (Hg := authorized_gate now db query tok acct Ha).
  destruct acct as [|c acct']; [congruence|].
  assert (Hr : leads now db ax query =
               match getLeads ax (accessToken tok) (c :: acct')
                       {[ lit "limit" := limit_or_25 (query !! lit "limit") ]} with
               | Fulfilled l => data_response l
               | Rejected error => route_failure error (lit "Failed to fetch leads")
               end).
  { unfold leads. rewrite Hg. reflexivity. }
  rewrite Hr, getLeads_closed_form. fold listing.
  repeat split.
  - intros fp forms -> ->. reflexivity.
  - intros fp -> ->. reflexivity.
  - intros e ->. reflexivity.
Qed.

(** X12. Tagging a lead sets [form_name] and [form_id], overwriting what
    the upstream lead had under those keys, and leaves every other
    property of the lead as it was. *)
Theorem tagging_keeps_the_other_fields (form : Form.t) (raw : jsobj) (k : jsstring) :
  tag_lead form raw !! k =
    if decide (k = lit "form_name") then Some (JStr (Form.name form))
    else if decide (k = lit "form_id") then Some (JStr (Form.id form))
    else raw !! k.
Proof.
  unfold tag_lead. destruct (decide (k = lit "form_name")) as [-> | H1].
  - apply lookup_insert_eq.
  - rewrite lookup_insert_ne by congruence.
    destruct (decide (k = lit "form_id")) as [-> | H2].
    + apply lookup_insert_eq.
    + apply lookup_insert_ne. congruence.
Qed.

End GraphClient.

Section SpendRoute.

Import MetaApi Meta Spec RouteSpec.

Lemma spend_after_gate (now : Z) (db : Db) (ax : Axios) (query : Query)
  (tok : UserToken) (acct : jsstring) :
  authorized now db query tok acct ->
  let params : Params :=
    {[ lit "datePreset" := query_or (query !! lit "datePreset") (PStr (lit "last_30d"));
       lit "level" := query_or (query !! lit "level") (PStr (lit "campaign"));
       lit "limit" := limit_or_25 (query !! lit "limit") ]} in
  let fetch (params : Params) :=
    match getSpend ax (accessToken tok) acct params with
    | Fulfilled page => data_response page
    | Rejected error => route_failure error (lit "Failed to fetch spend data")
    end in
  spend now db ax query =
    if truthy (query !! lit "timeRange") then
      match Codec.JSON_parse (default ([] : jsstring) (query !! lit "timeRange")) with
      | Some tr => fetch (<[ lit "timeRange" := PObj tr ]> params)
      | None => error_response 400 invalid_timeRange
      end
    else fetch params.
Proof.
  intros Ha params fetch.
  assert (Hacct : acct <> []) by (destruct Ha as (? & _ & _ & _ & _ & H); exact H).
  unfold spend. rewrite (authorized_gate now db query tok acct Ha).
  destruct acct as [|c acct']; [congruence|]. reflexivity.
Qed.

Lemma getSpend_request (ax : Axios) (tok id : jsstring) (params : Params) :
  exists P : Params,
    getSpend ax tok id params
      = graph_error (get_items ax
           (graph_url (lit "/" ++ normalizeAccountId id ++ lit "/insights")) P) /\
    (forall k v, params !! k = Some v -> P !! k = Some v) /\
    (params !! lit "access_token" = None -> P !! lit "access_token" = Some (PStr tok)) /\
    P !! lit "date_preset"
      = Some (default (param_or (params !! lit "datePreset") (PStr (lit "last_30d")))
                (params !! lit "date_preset")) /\
    P !! lit "time_range"
      = Some (default
                (match params !! lit "timeRange" with
                 | Some tr => if param_truthy tr then PStringified tr else PUndefined
                 | None => PUndefined
                 end)
                (params !! lit "time_range")).
Proof.
  eexists. split; [unfold getSpend; rewrite makeGraphApiRequest_graph_error; reflexivity|].
  split; [|split; [|split]].
  - intros k v Hk. apply lookup_union_Some_l, lookup_union_Some_l, Hk.
  - intros Hn. rewrite lookup_union_r; [apply lookup_singleton_eq|].
    rewrite lookup_union_r by exact Hn.
    rewrite !lookup_insert_ne by keys_differ. apply lookup_singleton_ne. keys_differ.
  - rewrite lookup_union_l by (apply lookup_singleton_ne; keys_differ).
    rewrite lookup_union. destruct (params !! lit "date_preset") as [v|]; [reflexivity|].
    rewrite (left_id_L None _).
    rewrite lookup_insert_ne by keys_differ. rewrite lookup_insert_eq. reflexivity.
  - rewrite lookup_union_l by (apply lookup_singleton_ne; keys_differ).
    rewrite lookup_union. destruct (params !! lit "time_range") as [v|]; [reflexivity|].
    rewrite (left_id_L None _).
    rewrite !lookup_insert_ne by keys_differ. rewrite lookup_insert_eq. reflexivity.
Qed.

Lemma query_or_truthy (o : option jsstring) (d : jsstring) :
  d <> [] -> param_truthy (query_or o (PStr d)) = true.
Proof.
  intros Hd. unfold query_or. destruct (truthy o) eqn:E.
  - destruct o as [s|]; [exact E|discriminate].
  - destruct d; [congruence|reflexivity].
Qed.

(** X13. /spend: a non-empty [timeRange] that is not JSON is answered 400
    without an upstream call; without a [timeRange] the upstream is sent
    the date preset (default last_30d), the level (default campaign) and
    an undefined time_range; with a JSON [timeRange] the upstream is sent
    its re-serialization as time_range (undefined when the parsed value
    is falsy), together with the date preset. *)
Theorem spend_time_range_handling (now : Z) (db : Db) (ax : Axios) (query : Query)
  (tok : UserToken) (acct : jsstring) :
  authorized now db query tok acct ->
  let url := graph_url (lit "/" ++ normalizeAccountId acct ++ lit "/insights") in
  let answer (P : Params) :=
    match graph_error (get_items ax url P) with
    | Fulfilled page => data_response page
    | Rejected error => route_failure error (lit "Failed to fetch spend data")
    end in
  (forall tr : jsstring,
     query !! lit "timeRange" = Some tr -> tr <> [] -> Codec.JSON_parse tr = None ->
     spend now db ax query = error_response 400 invalid_timeRange) /\
  (truthy (query !! lit "timeRange") = false ->
   exists P : Params,
     spend now db ax query = answer P /\
     P !! lit "access_token" = Some (PStr (accessToken tok)) /\
     P !! lit "date_preset"
       = Some (query_or (query !! lit "datePreset") (PStr (lit "last_30d"))) /\
     P !! lit "level" = Some (query_or (query !! lit "level") (PStr (lit "campaign"))) /\
     P !! lit "time_range" = Some PUndefined) /\
  (forall (tr : jsstring) (j : json),
     query !! lit "timeRange" = Some tr -> tr <> [] -> Codec.JSON_parse tr = Some j ->
     exists P : Params,
       spend now db ax query = answer P /\
       P !! lit "time_range"
         = Some (if json_truthy j then PStringified (PObj j) else PUndefined) /\
       P !! lit "date_preset"
         = Some (query_or (query !! lit "datePreset") (PStr (lit "last_30d")))).
Proof.
  intros Ha url answer. pose proof (spend_after_gate now db ax query tok acct Ha) as Hs.
  cbv zeta in Hs.
  set (params := ({[ lit "datePreset" := query_or (query !! lit "datePreset") (PStr (lit "last_30d"));
                     lit "level" := query_or (query !! lit "level") (PStr (lit "campaign"));
                     lit "limit" := limit_or_25 (query !! lit "limit") ]} : Params)) in *.
  assert (Hdp : params !! lit "datePreset"
                = Some (query_or (query !! lit "datePreset") (PStr (lit "last_30d"))))
    by apply lookup_insert_eq.
  assert (Hlv : params !! lit "level"
                = Some (query_or (query !! lit "level") (PStr (lit "campaign")))).
  { subst params. rewrite lookup_insert_ne by keys_differ. apply lookup_insert_eq. }
  assert (Hno : forall k, lit "datePreset" <> k -> lit "level" <> k -> lit "limit" <> k ->
                          params !! k = None).
  { intros k H1 H2 H3. subst params. rewrite !lookup_insert_ne by assumption.
    apply lookup_singleton_ne. assumption. }
  assert (Hpreset_value :
            param_or (Some (query_or (query !! lit "datePreset") (PStr (lit "last_30d"))))
              (PStr (lit "last_30d"))
            = query_or (query !! lit "datePreset") (PStr (lit "last_30d"))).
  { unfold param_or. rewrite query_or_truthy by discriminate. reflexivity. }
  split; [|split].
  - intros tr Hq Hne Hp. rewrite Hs, !Hq.
    destruct tr as [|c tr']; [congruence|].
    cbn [truthy truthy_str from_option id]. rewrite Hp. reflexivity.
  - intros Hq. rewrite Hs, Hq. cbv beta.
    destruct (getSpend_request ax (accessToken tok) acct params)
      as (P & HP & Hkeep & Htoken & Hpreset & Hrange).
    exists P. rewrite HP. split; [reflexivity|]. repeat split.
    + apply Htoken, Hno; keys_differ.
    + rewrite Hpreset, Hdp, (Hno (lit "date_preset")) by keys_differ.
      cbn [from_option id]. rewrite Hpreset_value. reflexivity.
    + apply Hkeep, Hlv.
    + rewrite Hrange, (Hno (lit "time_range")), (Hno (lit "timeRange")) by keys_differ.
      reflexivity.
  - intros tr j Hq Hne Hp. rewrite Hs, !Hq.
    destruct tr as [|c tr']; [congruence|].
    cbn [truthy truthy_str from_option id]. rewrite Hp. cbv beta.
    destruct (getSpend_request ax (accessToken tok) acct
                (<[ lit "timeRange" := PObj j ]> params))
      as (P & HP & Hkeep & Htoken & Hpreset & Hrange).
    exists P. rewrite HP. split; [reflexivity|]. split.
    + rewrite Hrange, lookup_insert_eq.
      rewrite lookup_insert_ne by keys_differ.
      rewrite (Hno (lit "time_range")) by keys_differ. reflexivity.
    + rewrite Hpreset. rewrite !(lookup_insert_ne _ (lit "timeRange")) by keys_differ.
      rewrite Hdp, (Hno (lit "date_preset")) by keys_differ.
      cbn [from_option id]. rewrite Hpreset_value. reflexivity.
Qed.

End SpendRoute.

(* ===================================================================== *)
(** * The outcomes of the callback *)
(* ===================================================================== *)

Section CallbackOutcomes.

Import Auth Spec RouteSpec.

(** X14. Apart from the redirects whose state decodes to a [userId] that
    is not a string, which pass the code exchange and whose upsert is not
    modelled, the callback changes the store only when it answers 200:
    every other answer leaves the store as it was, and a 200 answer
    reports success and the userId decoded from the state, the store
    having been written at that userId only. *)
Theorem callback_writes_only_on_success (cfg : Config) (ax : Axios) (clock : Clock)
  (db : Db) (query : Query) :
  match callback cfg ax clock db query with
  | Done res db' =>
      (Http.status res <> 200 /\ db' = db) \/
      (Http.status res = 200 /\
       body_get "success" (body res) = Some (VBool true) /\
       exists uid doc,
         decodeState (default ([] : jsstring) (query !! lit "state"))
           = Some (Some (JStr uid)) /\
         body_get "userId" (body res) = Some (VStr uid) /\
         userId doc = uid /\
         db' = with_doc db uid doc)
  | Unmodelled =>
      exists (decoded : option json) (short : TokenData),
        decodeState (default ([] : jsstring) (query !! lit "state")) = Some decoded /\
        (forall uid, decoded <> Some (JStr uid)) /\
        get_token ax tokenUrl (tokenParams cfg (query !! lit "code")) = Fulfilled short /\
        truthy (access_token short) = true
  end.
Proof.
  unfold callback. cbv zeta.
  destruct (truthy (query !! lit "error")).
  { left. split; [cbn; lia | reflexivity]. }
  destruct (negb (truthy (query !! lit "code")) || negb (truthy (query !! lit "state"))).
  { left. split; [cbn; lia | reflexivity]. }
  destruct (decodeState _) as [decoded|] eqn:Hdec.
  2:{ left. split; [cbn; lia | reflexivity]. }
  destruct (get_token ax tokenUrl (tokenParams cfg (query !! lit "code")))
    as [short|e] eqn:Hshort.
  2:{ left. split; [cbn; lia | reflexivity]. }
  destruct (truthy (access_token short)) eqn:Htok; cbn [negb].
  2:{ left. split; [cbn; lia | reflexivity]. }
  destruct (match get_token ax tokenUrl (longLivedParams cfg _) with
            | Fulfilled _ => _ | Rejected _ => _ end) as [tok exp].
  destruct decoded as [[| | |uid| |]|];
    try (exists decoded; eexists; repeat split; eauto; discriminate).
  all: try (eexists; exists short; repeat split; eauto; discriminate).
  unfold findOneAndUpdate. cbn [set_expiresAt set_userId].
  destruct (castable_date exp); cbn [negb].
  2:{ left. split; [cbn; lia | reflexivity]. }
  destruct (down db) as [e|] eqn:Hdown.
  - left. split; [cbn; lia | reflexivity].
  - right. split; [reflexivity|]. split; [reflexivity|].
    eexists. eexists. split; [reflexivity|]. split; [reflexivity|].
    split; [|reflexivity]. reflexivity.
Qed.

(** X15. The callback answers 400, without an upstream call and without
    touching the store, to a redirect that carries an [error], that lacks
    [code] or [state], or whose [state] does not decode. *)
Theorem callback_rejects_bad_redirect_before_upstream (cfg : Config) (ax : Axios)
  (clock : Clock) (db : Db) (query : Query) :
  (forall e : jsstring,
     query !! lit "error" = Some e -> e <> [] ->
     callback cfg ax clock db query
       = Done (Meta.error_response 400 (lit "OAuth error: " ++ e)) db) /\
  (truthy (query !! lit "error") = false ->
   truthy (query !! lit "code") = false \/ truthy (query !! lit "state") = false ->
   callback cfg ax clock db query
     = Done (Meta.error_response 400 (lit "Missing code or state parameter")) db) /\
  (forall state : jsstring,
     truthy (query !! lit "error") = false ->
     truthy (query !! lit "code") = true ->
     query !! lit "state" = Some state -> state <> [] ->
     decodeState state = None ->
     callback cfg ax clock db query
       = Done (Meta.error_response 400 (lit "Invalid state parameter")) db).
Proof.
  split; [|split].
  - intros e He Hne. unfold callback. cbv zeta. rewrite !He.
    destruct e as [|c e']; [congruence|]. reflexivity.
  - intros Herr Hmiss. unfold callback. cbv zeta. rewrite Herr.
    destruct Hmiss as [-> | ->]; [reflexivity|].
    rewrite orb_true_r. reflexivity.
  - intros state Herr Hcode Hstate Hne Hdec. unfold callback. cbv zeta.
    rewrite Herr, Hcode, !Hstate.
    destruct state as [|c state']; [congruence|].
    cbn [truthy truthy_str negb orb from_option id]. rewrite Hdec. reflexivity.
Qed.

(** X16. When the code exchange is rejected the callback answers 500 with
    the upstream's error message if there is one, else the error's own
    message, else 'Authentication failed'; when the exchange returns no
    access token it answers 400 'Failed to obtain access token'. The
    store is left as it was. *)
Theorem callback_first_exchange_failures (cfg : Config) (ax : Axios) (clock : Clock)
  (db : Db) (query : Query) (code state : jsstring) (decoded : option json) :
  truthy (query !! lit "error") = false ->
  query !! lit "code" = Some code -> code <> [] ->
  query !! lit "state" = Some state -> state <> [] ->
  decodeState state = Some decoded ->
  (forall e,
     get_token ax tokenUrl (tokenParams cfg (Some code)) = Rejected e ->
     callback cfg ax clock db query = Done (Meta.error_response 500 (callback_error e)) db) /\
  (forall short,
     get_token ax tokenUrl (tokenParams cfg (Some code)) = Fulfilled short ->
     truthy (access_token short) = false ->
     callback cfg ax clock db query
       = Done (Meta.error_response 400 (lit "Failed to obtain access token")) db) /\
  (forall e m, response e = Some (Some m) -> m <> [] -> callback_error e = m) /\
  (forall e m,
     truthy (match response e with Some o => o | None => None end) = false ->
     message e = m -> m <> [] -> callback_error e = m) /\
  (forall e,
     truthy (match response e with Some o => o | None => None end) = false ->
     message e = [] -> callback_error e = lit "Authentication failed").
Proof.
  intros Herr Hcode Hc Hstate Hs Hdec.
  split; [|split; [|split; [|split]]].
  - intros e He. unfold callback. cbv zeta. rewrite Herr, !Hcode, !Hstate.
    destruct code as [|c code']; [congruence|]. destruct state as [|c' state']; [congruence|].
    cbn [truthy truthy_str negb orb from_option id]. rewrite Hdec, He. reflexivity.
  - intros short Hshort Htok. unfold callback. cbv zeta. rewrite Herr, !Hcode, !Hstate.
    destruct code as [|c code']; [congruence|]. destruct state as [|c' state']; [congruence|].
    cbn [truthy truthy_str negb orb from_option id]. rewrite Hdec, Hshort, Htok. reflexivity.
  - intros e m Hr Hm. unfold callback_error. rewrite Hr.
    destruct m; [congruence|reflexivity].
  - intros e m Hr <- Hm. unfold callback_error, or_else. rewrite Hr.
    destruct (message e); [congruence|reflexivity].
  - intros e Hr Hm. unfold callback_error, or_else. rewrite Hr, Hm. reflexivity.
Qed.

Lemma callback_upsert (cfg : Config) (ax : Axios) (clock : Clock) (db : Db)
  (query : Query) (uid : jsstring) (short : TokenData) (short_token : jsstring) :
  reaches_upsert cfg ax db query uid short short_token ->
  storable cfg ax clock short short_token ->
  callback cfg ax clock db query =
    Done (json_response
            [("success", VBool true);
             ("message", VStr (lit "Authentication successful"));
             ("userId", VStr uid);
             ("expiresAt", VOptDate (expiresAt (stored_credential cfg ax clock db uid
                                                  short short_token)))])
         (with_doc db uid (stored_credential cfg ax clock db uid short short_token)).
Proof.
  intros (code & state & Herr & Hcode & Hc & Hstate & Hs & Hdec & Hshort & Htok & Ht & Hup)
         Hdate.
  exact (callback_success_path cfg ax clock db query code state uid short short_token
           Herr Hcode Hc Hstate Hs Hdec Hshort Htok Ht Hup Hdate).
Qed.

(** X24. When the expiry computed from the upstream's [expires_in] is
    beyond the range of Date, the upsert is refused: the callback answers
    500 with Mongoose's message and the store is left as it was, although
    both exchanges may have succeeded. *)
Theorem callback_refuses_invalid_expiry (cfg : Config) (ax : Axios) (clock : Clock)
  (db : Db) (query : Query) (uid : jsstring) (short : TokenData)
  (short_token : jsstring) :
  reaches_upsert cfg ax db query uid short short_token ->
  castable_date
    (snd (upgraded cfg ax clock short_token (short_expiry clock short))) = false ->
  exists res,
    callback cfg ax clock db query = Done res db /\
    Http.status res = 500 /\
    body_get "success" (body res) = Some (VBool false) /\
    (cast_message db <> [] ->
     body_get "error" (body res) = Some (VStr (cast_message db))).
Proof.
  intros (code & state & Herr & Hcode & Hc & Hstate & Hs & Hdec & Hshort & Htok & Ht & _)
         Hdate.
  eexists. split.
  { exact (callback_cast_failure cfg ax clock db query code state uid short short_token
             Herr Hcode Hc Hstate Hs Hdec Hshort Htok Ht Hdate). }
  split; [reflexivity|]. split; [reflexivity|].
  intros Hne. cbn [body Meta.error_response body_get String.eqb Ascii.eqb Bool.eqb].
  unfold callback_error, or_else, Error. cbn [response message truthy].
  destruct (cast_message db); [congruence|reflexivity].
Qed.

(** X18. After a callback that reaches the upsert with an expiry that is
    a valid Date (or none), the gate lets the user's requests through with
    the stored credential until its expiry (for ever when it has none),
    and answers 401 with [expired: true] from the expiry on. *)
Theorem callback_then_gate (cfg : Config) (ax : Axios) (clock : Clock) (db : Db)
  (query : Query) (uid : jsstring) (short : TokenData) (short_token : jsstring) :
  reaches_upsert cfg ax db query uid short short_token ->
  storable cfg ax clock short short_token ->
  uid <> [] ->
  exists res db',
    callback cfg ax clock db query = Done res db' /\
    let cred := stored_credential cfg ax clock db uid short short_token in
    forall (now : Z) (next : Query),
      next !! lit "userId" = Some uid ->
      (forall e, expiresAt cred = Some e -> now < e ->
         Meta.validateUserAndToken now db' next =
           Meta.Next {| Meta.req_userToken := cred;
                        Meta.req_accessToken := accessToken cred;
                        Meta.req_adAccountId :=
                          or_else (adAccountId cred) (next !! lit "adAccountId") |}) /\
      (expiresAt cred = None ->
         Meta.validateUserAndToken now db' next =
           Meta.Next {| Meta.req_userToken := cred;
                        Meta.req_accessToken := accessToken cred;
                        Meta.req_adAccountId :=
                          or_else (adAccountId cred) (next !! lit "adAccountId") |}) /\
      (forall e, expiresAt cred = Some e -> e <= now ->
         exists body,
           Meta.validateUserAndToken now db' next
             = Meta.Respond {| Http.status := 401; body := body |} /\
           body_get "expired" body = Some (VBool true)).
Proof.
  intros Hr Hd Huid. eexists. eexists.
  split; [apply (callback_upsert _ _ _ _ _ _ _ _ Hr Hd)|].
  intros cred now next Hnext.
  assert (Hu : supplies_userId next uid) by (split; assumption).
  assert (Hf : findOne (with_doc db uid cred) uid = Fulfilled (Some cred)).
  { unfold findOne, with_doc. cbn [down docs]. rewrite lookup_insert_eq. reflexivity. }
  split; [|split].
  - intros e He Hlt. apply (gate_passes now _ next uid cred Hu Hf).
    unfold isExpired. rewrite He. destruct (now >=? e) eqn:E; [|reflexivity].
    apply Z.geb_le in E. lia.
  - intros He. apply (gate_passes now _ next uid cred Hu Hf).
    unfold isExpired. rewrite He. reflexivity.
  - intros e He Hle. eexists. split.
    + apply (gate_expired now _ next uid cred Hu Hf).
      apply isExpired_true_iff. eauto.
    + reflexivity.
Qed.

(** X19. For a user with a stored credential, /auth/status reports
    [authenticated: true] exactly when the gate would let the same
    request through. *)
Theorem status_agrees_with_gate (now : Z) (db : Db) (query : Query) (uid : jsstring)
  (tok : UserToken) :
  supplies_userId query uid ->
  findOne db uid = Fulfilled (Some tok) ->
  Auth.status now db query =
    json_response [("success", VBool true);
                   ("authenticated", VBool (negb (isExpired now tok)));
                   ("expired", VBool (isExpired now tok));
                   ("expiresAt", VOptDate (expiresAt tok));
                   ("adAccountId", VOptStr (adAccountId tok))] /\
  (body_get "authenticated" (body (Auth.status now db query)) = Some (VBool true) <->
   exists req, Meta.validateUserAndToken now db query = Meta.Next req).
Proof.
  intros Hu Hf.
  assert (Hs : Auth.status now db query =
    json_response [("success", VBool true);
                   ("authenticated", VBool (negb (isExpired now tok)));
                   ("expired", VBool (isExpired now tok));
                   ("expiresAt", VOptDate (expiresAt tok));
                   ("adAccountId", VOptStr (adAccountId tok))]).
  { destruct Hu as [Hq Hne]. unfold Auth.status. rewrite !Hq.
    destruct uid as [|c uid']; [congruence|].
    cbn [truthy truthy_str negb from_option id]. rewrite Hf. reflexivity. }
  split; [exact Hs|]. rewrite Hs. cbn [body json_response body_get String.eqb Ascii.eqb Bool.eqb].
  split.
  - intros [= He]. eexists. apply (gate_passes now db query uid tok Hu Hf).
    destruct (isExpired now tok); [discriminate|reflexivity].
  - intros (req & Hg). destruct (gate_next _ _ _ _ Hg) as (uid' & [Hq' _] & Hf' & He' & _).
    destruct Hu as [Hq _]. rewrite Hq in Hq'. injection Hq' as <-.
    rewrite Hf in Hf'. injection Hf' as ->. rewrite He'. reflexivity.
Qed.

End CallbackOutcomes.

(* ===================================================================== *)
(** * The login flow, from /auth/start to the first request *)
(* ===================================================================== *)

Section LoginFlow.

Import Auth Spec RouteSpec.

Lemma decode_encoded_state (userId : jsstring) :
  Forall code_unit userId ->
  decodeState (encodeState userId) = Some (Some (JStr userId)).
Proof.
  intros Hu. unfold decodeState, encodeState.
  rewrite base64_roundtrip by (apply utf8_encode_bytes, wf16_envelope, Hu).
  rewrite utf8_roundtrip by (apply wf16_envelope, Hu).
  rewrite JSON_parse_envelope by exact Hu.
  rewrite lookup_singleton_eq. reflexivity.
Qed.

(** X20. Different userIds get different [state] values. *)
Theorem distinct_users_get_distinct_states (u1 u2 : jsstring) :
  Forall code_unit u1 -> Forall code_unit u2 ->
  u1 <> u2 -> encodeState u1 <> encodeState u2.
Proof.
  intros H1 H2 Hne Heq. apply Hne.
  pose proof (decode_encoded_state u1 H1) as D1.
  pose proof (decode_encoded_state u2 H2) as D2.
  rewrite Heq in D1. rewrite D1 in D2. injection D2 as ->. reflexivity.
Qed.

Lemma encodeState_nonempty (userId : jsstring) : encodeState userId <> [].
Proof.
  unfold encodeState. rewrite envelope_shape. cbn [app].
  change (Codec.utf8_encode (123 :: ?r))
    with (123 :: Codec.utf8_encode r).
  destruct (Codec.utf8_encode _) as [|b [|c r]]; discriminate.
Qed.

(** X21. /auth/start answers with an authorization URL whose [state] is
    the encoded userId, and a callback carrying that state, when its
    upsert goes through, stores the credential under that same userId and
    reports it. *)
Theorem start_then_callback_correlates_the_user (cfg : Config) (ax : Axios)
  (clock : Clock) (db : Db) (first redirect : Query) (uid app secret uri code : jsstring)
  (short : TokenData) (short_token : jsstring) :
  first !! lit "userId" = Some uid -> uid <> [] -> Forall code_unit uid ->
  META_APP_ID cfg = Some app -> app <> [] ->
  META_APP_SECRET cfg = Some secret -> secret <> [] ->
  encodeURIComponent (interpolate (META_REDIRECT_URI cfg)) = Some uri ->
  redirect !! lit "error" = None ->
  redirect !! lit "code" = Some code -> code <> [] ->
  redirect !! lit "state" = Some (encodeState uid) ->
  get_token ax tokenUrl (tokenParams cfg (Some code)) = Fulfilled short ->
  access_token short = Some short_token -> short_token <> [] ->
  down db = None ->
  storable cfg ax clock short short_token ->
  start cfg first =
    json_response
      [("success", VBool true);
       ("authUrl",
        VStr (lit "https://www.facebook.com/v18.0/dialog/oauth?client_id=" ++ app
                ++ lit "&redirect_uri=" ++ uri
                ++ lit "&scope=ads_read,ads_management,business_management,leads_retrieval"
                ++ lit "&state=" ++ encodeState uid
                ++ lit "&response_type=code"));
       ("message", VStr (lit "Redirect user to this URL to authenticate"))] /\
  exists expiry db' doc,
    callback cfg ax clock db redirect =
      Done (json_response [("success", VBool true);
                           ("message", VStr (lit "Authentication successful"));
                           ("userId", VStr uid);
                           ("expiresAt", expiry)]) db' /\
    findOne db' uid = Fulfilled (Some doc) /\
    userId doc = uid.
Proof.
  intros Hq Hne Hcu Happ Ha Hsec Hs Huri Herr Hcode Hc Hstate Hshort Htok Ht Hup Hd.
  split.
  - unfold start. cbv zeta. rewrite !Hq, Happ, Hsec, Huri.
    destruct uid as [|c uid']; [congruence|].
    destruct app as [|a app']; [congruence|].
    destruct secret as [|s secret']; [congruence|].
    cbn [truthy truthy_str negb orb from_option id interpolate].
    reflexivity.
  - assert (Hr : reaches_upsert cfg ax db redirect uid short short_token).
    { exists code, (encodeState uid). rewrite Herr.
      repeat split; try assumption.
      - apply encodeState_nonempty.
      - apply decode_encoded_state, Hcu. }
    rewrite (callback_upsert cfg ax clock db redirect uid short short_token Hr Hd).
    eexists. eexists. eexists. split; [reflexivity|].
    unfold findOne, with_doc. cbn [down docs]. rewrite lookup_insert_eq.
    split; reflexivity.
Qed.

(** X22. A callback whose ad-account discovery fails or finds no account
    still succeeds, when its upsert goes through, and stores the
    credential without an ad account; a
    later campaigns request of that user without an [adAccountId] query
    parameter is then answered 400. *)
Theorem callback_tolerates_failed_discovery (cfg : Config) (ax : Axios) (clock : Clock)
  (db : Db) (query : Query) (uid : jsstring) (short : TokenData) (short_token : jsstring) :
  reaches_upsert cfg ax db query uid short short_token ->
  storable cfg ax clock short short_token ->
  (forall url P,
     match get_accounts ax url P with
     | Fulfilled page => data page = None \/ data page = Some []
     | Rejected _ => True
     end) ->
  exists expiry db' doc,
    callback cfg ax clock db query =
      Done (json_response [("success", VBool true);
                           ("message", VStr (lit "Authentication successful"));
                           ("userId", VStr uid);
                           ("expiresAt", expiry)]) db' /\
    findOne db' uid = Fulfilled (Some doc) /\
    adAccountId doc = None /\
    (forall (now : Z) (next : Query),
       uid <> [] -> next !! lit "userId" = Some uid ->
       isExpired now doc = false ->
       truthy (next !! lit "adAccountId") = false ->
       Meta.campaigns now db' ax next =
         Meta.error_response 400
           (lit "adAccountId is required. Provide it in query params or complete OAuth to auto-detect.")).
Proof.
  intros Hr Hd Hacc.
  rewrite (callback_upsert cfg ax clock db query uid short short_token Hr Hd).
  set (cred := stored_credential cfg ax clock db uid short short_token).
  assert (Hnone : adAccountId cred = None).
  { subst cred. unfold stored_credential, apply_update. cbn [adAccountId set_adAccountId].
    unfold discovered_account.
    match goal with |- context [get_accounts ax ?u ?p] => specialize (Hacc u p);
      destruct (get_accounts ax u p) as [page|e] end; [|reflexivity].
    destruct Hacc as [-> | ->]; reflexivity. }
  eexists. exists (with_doc db uid cred), cred.
  split; [reflexivity|].
  assert (Hf : findOne (with_doc db uid cred) uid = Fulfilled (Some cred)).
  { unfold findOne, with_doc. cbn [down docs]. rewrite lookup_insert_eq. reflexivity. }
  split; [exact Hf|]. split; [exact Hnone|].
  intros now next Huid Hnext He Hq.
  unfold Meta.campaigns.
  rewrite (gate_passes now _ next uid cred (conj Hnext Huid) Hf He).
  cbn [Meta.req_adAccountId]. unfold or_else. rewrite Hnone. cbn [truthy]. rewrite Hq.
  reflexivity.
Qed.

(** X23. What the callback stores when the expiry is a valid Date (or
    none) and the upsert goes through: after an upgrade that returns a token
    and a lifetime of [n] seconds, the long-lived token, expiring [n]
    seconds after the upgrade, the ad account discovered with the
    long-lived token; after an upgrade answer without a token, the
    short-lived token and its expiry. The token type defaults to Bearer
    and an earlier refresh token is kept. *)
Theorem callback_upgrade_outcomes (cfg : Config) (ax : Axios) (clock : Clock)
  (db : Db) (query : Query) (uid : jsstring) (short : TokenData) (short_token : jsstring) :
  reaches_upsert cfg ax db query uid short short_token ->
  storable cfg ax clock short short_token ->
  let cred := stored_credential cfg ax clock db uid short short_token in
  callback cfg ax clock db query =
    Done (json_response [("success", VBool true);
                         ("message", VStr (lit "Authentication successful"));
                         ("userId", VStr uid);
                         ("expiresAt", VOptDate (expiresAt cred))])
         (with_doc db uid cred) /\
  (forall (long : TokenData) (long_token : jsstring) (n : Z),
     get_token ax tokenUrl (longLivedParams cfg short_token) = Fulfilled long ->
     access_token long = Some long_token -> long_token <> [] ->
     expires_in long = Some n -> n <> 0 ->
     accessToken cred = long_token /\
     expiresAt cred = Some (now_upgrade clock + n * 1000) /\
     adAccountId cred = discovered_account ax long_token) /\
  (forall long : TokenData,
     get_token ax tokenUrl (longLivedParams cfg short_token) = Fulfilled long ->
     truthy (access_token long) = false ->
     accessToken cred = short_token /\
     expiresAt cred = short_expiry clock short /\
     adAccountId cred = discovered_account ax short_token) /\
  tokenType cred = or_default (token_type short) (lit "Bearer") /\
  refreshToken cred = match docs db !! uid with Some old => refreshToken old | None => None end.
Proof.
  intros Hr Hd cred. split; [apply (callback_upsert _ _ _ _ _ _ _ _ Hr Hd)|].
  subst cred. unfold stored_credential, apply_update, upgraded.
  cbn [accessToken expiresAt adAccountId tokenType refreshToken set_accessToken
       set_expiresAt set_adAccountId set_tokenType].
  split; [|split; [|split; reflexivity]].
  - intros long long_token n Hlong Htok Hne Hn Hnz. rewrite Hlong, Htok, Hn.
    destruct long_token as [|c t]; [congruence|]. cbn [truthy truthy_str from_option id fst snd].
    destruct (Z.eqb_spec n 0); [congruence|]. repeat split.
  - intros long Hlong Htok. rewrite Hlong, Htok. repeat split.
Qed.

End LoginFlow.

(* ===================================================================== *)
(** * The properties above on the sample data *)
(* ===================================================================== *)

Import RouteSpec RouteSample.

Lemma alice_authorized :
  authorized 1000 Sample.db alice_query Sample.alice (lit "act_1").
Proof.
  exists (lit "alice"). repeat split; try (vm_compute; reflexivity); discriminate.
Qed.

Lemma alice_authorized_malformed_range :
  authorized 1000 Sample.db malformed_range_query Sample.alice (lit "act_1").
Proof.
  exists (lit "alice"). repeat split; try (vm_compute; reflexivity); discriminate.
Qed.

Lemma bob_without_account :
  authorized_without_account 1000 Sample.db campaign_query Sample.bob.
Proof.
  exists (lit "bob"). repeat split; try (vm_compute; reflexivity); discriminate.
Qed.

Lemma sample_reaches_upsert (upgrade : outcome TokenData) :
  reaches_upsert CallbackSample.cfg (CallbackSample.upstream upgrade) Sample.db
    CallbackSample.query (lit "abc") CallbackSample.short_response (lit "short-lived").
Proof.
  exists (lit "AQDx"), (lit "eyJ1c2VySWQiOiJhYmMifQ==").
  repeat split; try (vm_compute; reflexivity); discriminate.
Qed.

Lemma sample_reaches_upsert_without_accounts :
  reaches_upsert CallbackSample.cfg upstream_without_accounts Sample.db
    CallbackSample.query (lit "abc") CallbackSample.short_response (lit "short-lived").
Proof.
  exists (lit "AQDx"), (lit "eyJ1c2VySWQiOiJhYmMifQ==").
  repeat split; try (vm_compute; reflexivity); discriminate.
Qed.

Lemma sample_reaches_upsert_far_future :
  reaches_upsert CallbackSample.cfg upstream_far_future Sample.db
    CallbackSample.query (lit "abc") far_future_response (lit "short-lived").
Proof.
  exists (lit "AQDx"), (lit "eyJ1c2VySWQiOiJhYmMifQ==").
  repeat split; try (vm_compute; reflexivity); discriminate.
Qed.

Lemma campaigns_route_request_witness :
  exists P : Params,
    Meta.campaigns 1000 Sample.db Sample.no_upstream alice_query =
      match graph_error (get_items Sample.no_upstream
              (graph_url (lit "/" ++ Spec.normalizeAccountId (lit "act_1") ++ lit "/campaigns")) P) with
      | Fulfilled page => Meta.data_response page
      | Rejected error => route_failure error (lit "Failed to fetch campaigns")
      end /\
    P !! lit "access_token" = Some (PStr (lit "EAAB-alice")) /\
    P !! lit "limit" = Some (PNum 25) /\
    P !! lit "fields" = Some PUndefined.
Proof.
  destruct (campaigns_route_request 1000 Sample.db Sample.no_upstream alice_query
              Sample.alice (lit "act_1") alice_authorized) as (P & E & Ht & Hl & Hf).
  exists P. repeat split; assumption.
Defined.

Lemma upstream_error_reaches_the_caller_witness :
  Meta.campaigns 1000 Sample.db graph_down alice_query
    = Meta.error_response 500 (lit "Meta API Error: Invalid OAuth access token.") /\
  Meta.leads 1000 Sample.db graph_down alice_query
    = Meta.error_response 500 (lit "Meta API Error: Invalid OAuth access token.").
Proof.
  destruct (upstream_error_reaches_the_caller 1000 Sample.db graph_down alice_query
              Sample.alice (lit "act_1") CallbackSample.outage alice_authorized
              ltac:(reflexivity) ltac:(reflexivity)) as [H _].
  destruct (H (lit "Invalid OAuth access token.") ltac:(reflexivity) ltac:(discriminate))
    as (E1 & _ & E3 & _).
  split; [exact E1 | exact E3].
Defined.

Lemma adsets_of_a_campaign_ignore_the_account_witness :
  MetaApi.getAdSets Sample.no_upstream (lit "EAAB") (lit "1") (Some (lit "c1")) ∅
  = MetaApi.getAdSets Sample.no_upstream (lit "EAAB") (lit "act_2") (Some (lit "c1")) ∅.
Proof.
  apply (proj2 (adsets_of_a_campaign_ignore_the_account Sample.no_upstream (lit "EAAB")
                  (lit "act_2") (lit "c1") ∅ ltac:(discriminate)) (lit "1")).
Defined.

Lemma missing_account_stops_before_upstream_witness :
  Meta.adsets 1000 Sample.db Sample.no_upstream campaign_query
    = Meta.error_response 400 (lit "adAccountId is required").
Proof.
  exact (proj1 (proj2 (proj2 (missing_account_stops_before_upstream 1000 Sample.db
                  Sample.no_upstream campaign_query Sample.bob bob_without_account)))).
Defined.

Lemma leads_route_outcomes_witness :
  Http.status (Meta.leads 1000 Sample.db LeadsSample.upstream alice_query) = 200 /\
  Http.status (Meta.leads 1000 Sample.db graph_down alice_query) = 500.
Proof.
  split.
  - destruct (leads_route_outcomes 1000 Sample.db LeadsSample.upstream alice_query
                Sample.alice (lit "act_1") alice_authorized) as (H & _).
    rewrite (H {| data := Some LeadsSample.seven_forms;
                  paging := Some LeadsSample.forms_paging |}
               LeadsSample.seven_forms ltac:(reflexivity) ltac:(reflexivity)).
    reflexivity.
  - destruct (leads_route_outcomes 1000 Sample.db graph_down alice_query
                Sample.alice (lit "act_1") alice_authorized) as (_ & _ & H).
    rewrite (H (Error (lit "Meta API Error: Invalid OAuth access token."))
               ltac:(reflexivity)).
    reflexivity.
Defined.

Lemma spend_time_range_handling_witness :
  Meta.spend 1000 Sample.db Sample.no_upstream malformed_range_query
    = Meta.error_response 400 RouteSpec.invalid_timeRange.
Proof.
  destruct (spend_time_range_handling 1000 Sample.db Sample.no_upstream
              malformed_range_query Sample.alice (lit "act_1")
              alice_authorized_malformed_range) as (H & _).
  apply (H (lit "{since")); [reflexivity | discriminate | vm_compute; reflexivity].
Defined.

Lemma callback_first_exchange_failures_witness :
  Auth.callback CallbackSample.cfg graph_down CallbackSample.clock Sample.db
    CallbackSample.query
  = Auth.Done (Meta.error_response 500 (lit "Invalid OAuth access token.")) Sample.db.
Proof.
  destruct (callback_first_exchange_failures CallbackSample.cfg graph_down
              CallbackSample.clock Sample.db CallbackSample.query
              (lit "AQDx") (lit "eyJ1c2VySWQiOiJhYmMifQ==") (Some (JStr (lit "abc")))
              ltac:(reflexivity) ltac:(vm_compute; reflexivity) ltac:(discriminate)
              ltac:(vm_compute; reflexivity) ltac:(discriminate)
              ltac:(vm_compute; reflexivity)) as (H & _).
  exact (H CallbackSample.outage ltac:(reflexivity)).
Defined.

Lemma callback_then_gate_witness :
  exists res db',
    Auth.callback CallbackSample.cfg
      (CallbackSample.upstream (Fulfilled CallbackSample.long_response))
      CallbackSample.clock Sample.db CallbackSample.query = Auth.Done res db' /\
    (exists req, Meta.validateUserAndToken 2000 db' abc_query = Meta.Next req) /\
    (exists body, Meta.validateUserAndToken 5184001500 db' abc_query
                  = Meta.Respond {| Http.status := 401; body := body |}).
Proof.
  destruct (callback_then_gate CallbackSample.cfg
              (CallbackSample.upstream (Fulfilled CallbackSample.long_response))
              CallbackSample.clock Sample.db CallbackSample.query (lit "abc")
              CallbackSample.short_response (lit "short-lived")
              (sample_reaches_upsert _) ltac:(vm_compute; reflexivity)
              ltac:(discriminate))
    as (res & db' & E & H).
  exists res, db'. split; [exact E|]. cbv zeta in H. split.
  - eexists.
    apply (proj1 (H 2000 abc_query ltac:(vm_compute; reflexivity)) 5184001500);
      [vm_compute; reflexivity | lia].
  - destruct (proj2 (proj2 (H 5184001500 abc_query ltac:(vm_compute; reflexivity)))
                5184001500 ltac:(vm_compute; reflexivity) ltac:(lia)) as (b & Hb & _).
    exists b. exact Hb.
Defined.

Lemma status_agrees_with_gate_witness :
  Spec.body_get "authenticated" (body (Auth.status 1000 Sample.db alice_query))
    = Some (VBool true) <->
  exists req, Meta.validateUserAndToken 1000 Sample.db alice_query = Meta.Next req.
Proof.
  apply (status_agrees_with_gate 1000 Sample.db alice_query (lit "alice") Sample.alice).
  - split; [vm_compute; reflexivity | discriminate].
  - vm_compute. reflexivity.
Defined.

Lemma distinct_users_get_distinct_states_witness :
  Auth.encodeState (lit "abc") <> Auth.encodeState (lit "abd").
Proof.
  apply distinct_users_get_distinct_states.
  - change (Forall code_unit [97; 98; 99]).
    repeat (constructor; [unfold code_unit; lia|]). constructor.
  - change (Forall code_unit [97; 98; 100]).
    repeat (constructor; [unfold code_unit; lia|]). constructor.
  - discriminate.
Defined.

Lemma start_then_callback_correlates_the_user_witness :
  exists expiry db' doc,
    Auth.callback CallbackSample.cfg
      (CallbackSample.upstream (Rejected CallbackSample.outage))
      CallbackSample.clock Sample.db CallbackSample.query =
      Auth.Done (json_response [("success", VBool true);
                                ("message", VStr (lit "Authentication successful"));
                                ("userId", VStr (lit "abc"));
                                ("expiresAt", expiry)]) db' /\
    findOne db' (lit "abc") = Fulfilled (Some doc) /\
    userId doc = lit "abc".
Proof.
  apply (proj2 (start_then_callback_correlates_the_user CallbackSample.cfg
           (CallbackSample.upstream (Rejected CallbackSample.outage))
           CallbackSample.clock Sample.db abc_query CallbackSample.query
           (lit "abc") (lit "1234567890") (lit "s3cret")
           (lit "https%3A%2F%2Fbot.example%2Fauth%2Fcallback") (lit "AQDx")
           CallbackSample.short_response (lit "short-lived")
           ltac:(vm_compute; reflexivity) ltac:(discriminate)
           ltac:(change (Forall code_unit [97; 98; 99]);
                 repeat (constructor; [unfold code_unit; lia|]); constructor)
           ltac:(reflexivity) ltac:(discriminate)
           ltac:(reflexivity) ltac:(discriminate)
           ltac:(vm_compute; reflexivity)
           ltac:(vm_compute; reflexivity)
           ltac:(vm_compute; reflexivity) ltac:(discriminate)
           ltac:(vm_compute; reflexivity)
           ltac:(vm_compute; reflexivity)
           ltac:(reflexivity) ltac:(discriminate)
           ltac:(reflexivity) ltac:(vm_compute; reflexivity))).
Defined.

Lemma callback_tolerates_failed_discovery_witness :
  exists expiry db' doc,
    Auth.callback CallbackSample.cfg upstream_without_accounts
      CallbackSample.clock Sample.db CallbackSample.query =
      Auth.Done (json_response [("success", VBool true);
                                ("message", VStr (lit "Authentication successful"));
                                ("userId", VStr (lit "abc"));
                                ("expiresAt", expiry)]) db' /\
    findOne db' (lit "abc") = Fulfilled (Some doc) /\
    adAccountId doc = None.
Proof.
  destruct (callback_tolerates_failed_discovery CallbackSample.cfg
              upstream_without_accounts CallbackSample.clock Sample.db
              CallbackSample.query (lit "abc") CallbackSample.short_response
              (lit "short-lived") sample_reaches_upsert_without_accounts
              ltac:(vm_compute; reflexivity)
              ltac:(intros; right; reflexivity))
    as (expiry & db' & doc & E & Hf & Hn & _).
  exists expiry, db', doc. repeat split; assumption.
Defined.

Lemma callback_upgrade_outcomes_witness :
  expiresAt (stored_credential CallbackSample.cfg
               (CallbackSample.upstream (Fulfilled long_response_30_days))
               CallbackSample.clock Sample.db (lit "abc")
               CallbackSample.short_response (lit "short-lived"))
  = Some (1500 + 2592000 * 1000).
Proof.
  destruct (callback_upgrade_outcomes CallbackSample.cfg
              (CallbackSample.upstream (Fulfilled long_response_30_days))
              CallbackSample.clock Sample.db CallbackSample.query (lit "abc")
              CallbackSample.short_response (lit "short-lived")
              (sample_reaches_upsert _) ltac:(vm_compute; reflexivity))
    as (_ & H & _).
  exact (proj1 (proj2 (H long_response_30_days (lit "long-lived") 2592000
                         ltac:(reflexivity) ltac:(reflexivity) ltac:(discriminate)
                         ltac:(reflexivity) ltac:(lia)))).
Defined.

(** An upstream whose first exchange announces a lifetime of nine million
    million seconds: the callback answers 500 and stores nothing. *)
Lemma callback_refuses_invalid_expiry_witness :
  exists res,
    Auth.callback CallbackSample.cfg upstream_far_future CallbackSample.clock
      Sample.db CallbackSample.query = Auth.Done res Sample.db /\
    Http.status res = 500.
Proof.
  destruct (callback_refuses_invalid_expiry CallbackSample.cfg upstream_far_future
              CallbackSample.clock Sample.db CallbackSample.query (lit "abc")
              far_future_response (lit "short-lived")
              sample_reaches_upsert_far_future ltac:(vm_compute; reflexivity))
    as (res & E & Hs & _).
  exists res. split; [exact E | exact Hs].
Defined.
